(** * Delphi Reads Telegram bot: conversation state machine

    A shallow embedding of [bots/reads.ts] and [bots/ai.ts].

    - JavaScript strings are embedded as Stdlib strings, one character per
      UTF-16 code unit, so that the strings of the development are those
      whose code units are below 256; this covers the links, slugs and
      messages of the bot.  The only literal of the source above that range,
      the full-width commercial at U+FF20 that [cleanTextForMarkdown] writes
      in its last step, is kept as its three UTF-8 bytes.  Together they
      stand for that one character, which is neither white space nor reserved
      by Markdown, although the last of them, taken alone, is the code unit
      of the no-break space: statements on the white space of a cleaned text
      are therefore made on the text before that last step.
    - A field of the draft is a string.  The completion service is taken to
      answer with a string or to fail; the [null] content the API may give in
      a choice, which [fetchUrlSummary] would return and [handleUpdateUrl]
      store as the description, is outside the model, and so is the
      [TypeError] that the preview of such a draft ends in.
    - The handlers mutate [ctx.session], send replies and throw: they live in
      a monad [M] over the context, with exceptions carrying the [message] of
      the JavaScript [Error].  A mutation done before a throw persists, as in
      JavaScript.
    - The network collaborators (metadata service, list page, completion
      service, storage API) and the platform's [URL] constructor are the
      fields of a [Platform] record over which the handlers are parametrised.
    - One update is processed to completion before the next one of the same
      session: an [async] call is modelled as the call itself. *)

From Stdlib Require Import String Ascii List ZArith Lia Bool.
Import ListNotations.
Open Scope string_scope.

(** ** Strings, as the JavaScript methods used by the bot *)

Module JS.

(** [s.startsWith(p)] *)
Definition startsWith (s p : string) : bool := String.prefix p s.

(** [s.includes(p)] *)
Fixpoint includes (s p : string) : bool :=
  if String.prefix p s then true
  else match s with
       | EmptyString => false
       | String _ t => includes t p
       end.

Fixpoint drop (n : nat) (s : string) : string :=
  match n, s with
  | O, _ => s
  | S _, EmptyString => EmptyString
  | S n', String _ t => drop n' t
  end.

(** [s.replace(pat, rep)] with a string pattern: the first occurrence
    only. *)
Fixpoint replace (s pat rep : string) : string :=
  if String.prefix pat s then rep ++ drop (String.length pat) s
  else match s with
       | EmptyString => EmptyString
       | String c t => String c (replace t pat rep)
       end.

(** [s.substring(0, n)] *)
Definition substring0 (n : nat) (s : string) : string := String.substring 0 n s.

(** [s.replace(/c/g, rep)] for a class of characters [cls]. *)
Fixpoint replaceAll (cls : ascii -> bool) (rep : ascii -> string) (s : string) : string :=
  match s with
  | EmptyString => EmptyString
  | String c t => (if cls c then rep c else String c EmptyString) ++ replaceAll cls rep t
  end.

(** [\s], on the code units below 256: tab, line feed, vertical tab, form
    feed, carriage return, space and the no-break space U+00A0.  The other
    characters of the class (U+1680, U+2000 to U+200A, U+2028, U+2029,
    U+202F, U+205F, U+3000, U+FEFF) are code units above 255, which no string
    of the development holds. *)
Definition isSpace (c : ascii) : bool :=
  existsb (Nat.eqb (nat_of_ascii c)) [9; 10; 11; 12; 13; 32; 160]%nat.

(** [s.replace(/\s+/g, ' ')]: [inRun] tells that the previous character
    belonged to the run of white space being collapsed. *)
Fixpoint collapseSpaces (inRun : bool) (s : string) : string :=
  match s with
  | EmptyString => EmptyString
  | String c t =>
      if isSpace c
      then (if inRun then collapseSpaces true t else String " " (collapseSpaces true t))
      else String c (collapseSpaces false t)
  end.

(** Truthiness of a string: [!s] holds of the empty string only. *)
Definition falsy (s : string) : bool :=
  match s with EmptyString => true | _ => false end.

Definition nl : string := String (ascii_of_nat 10) EmptyString.

Definition quote : string := String (ascii_of_nat 34) EmptyString.

End JS.

(** ** Data model (reads.ts, lines 7-95) *)

Inductive ReadsState := await_description | await_title | await_url | build | none.

Inductive ReadsTag := reads | tweets | media | news | podcast | other.

Inductive SectorSlug := general | finance | infrastructure | macro_markets | metaverse.

Definition ERROR_UNAUTHORIZED := "ERROR_UNAUTHORIZED".
Definition ERROR_UNKNOWN := "ERROR_UNKNOWN".
Definition ERROR_DUPLICATE_READ := "ERROR_DUPLICATE_READ".
Definition OPENAI_ERROR := "OPENAI_ERROR".

Record Option (T : Type) := { slug : T; title_of : string }.
Arguments slug {T} _.
Arguments title_of {T} _.

Definition tagSlug (t : ReadsTag) : string :=
  match t with
  | reads => "reads" | tweets => "tweets" | media => "media"
  | news => "news" | podcast => "podcast" | other => "other"
  end.

Definition sectorSlug (s : SectorSlug) : string :=
  match s with
  | general => "general" | finance => "finance" | infrastructure => "infrastructure"
  | macro_markets => "macro-markets" | metaverse => "metaverse"
  end.

Definition types : list (Option ReadsTag) :=
  [ {| slug := reads; title_of := "Reads" |};
    {| slug := media; title_of := "Media" |};
    {| slug := tweets; title_of := "Tweets" |};
    {| slug := news; title_of := "News" |};
    {| slug := podcast; title_of := "Podcast" |};
    {| slug := other; title_of := "Other" |} ].

Definition sectors : list (Option SectorSlug) :=
  [ {| slug := general; title_of := "General" |};
    {| slug := finance; title_of := "DeFi" |};
    {| slug := infrastructure; title_of := "Infrastructure" |};
    {| slug := macro_markets; title_of := "Macro & Markets" |};
    {| slug := metaverse; title_of := "NFTs & Gaming" |} ].

(** The keys in the order [Object.keys] enumerates them. *)
Definition defaultTagsForDomain : list (string * list ReadsTag) :=
  [ ("bloomberg.com", [news]);
    ("medium.com", [reads]);
    ("spotify.com", [podcast]);
    ("x.com", [tweets]);
    ("youtube.com", [media]) ].

Record ReadsItem := {
  title : string;
  link : string;
  description : string;
  image_url : string;
  taxonomy : list SectorSlug;
  tags : list ReadsTag
}.

Record ReadsSession := {
  state : ReadsState;
  item : ReadsItem
}.

Record UrlMetadata := {
  md_title : option string;
  md_description : option string;
  md_image : option string
}.

Definition createNewItem : ReadsItem :=
  {| title := EmptyString; link := EmptyString; description := EmptyString;
     image_url := EmptyString;
     taxonomy := []; tags := [] |}.

Definition createDefaultSession : ReadsSession :=
  {| state := none; item := createNewItem |}.

Definition ReadsState_eqb (a b : ReadsState) : bool :=
  match a, b with
  | await_description, await_description | await_title, await_title
  | await_url, await_url | build, build | none, none => true
  | _, _ => false
  end.

Definition ReadsTag_eqb (a b : ReadsTag) : bool := String.eqb (tagSlug a) (tagSlug b).
Definition SectorSlug_eqb (a b : SectorSlug) : bool := String.eqb (sectorSlug a) (sectorSlug b).

(** ** The platform: [URL] and the network collaborators *)

Module URL.

(** The two properties of a parsed URL that [normalizeUrl] reads. *)
Record t := { origin : string; pathname : string }.

Definition inRange (lo hi : nat) (c : ascii) : bool :=
  (lo <=? nat_of_ascii c)%nat && (nat_of_ascii c <=? hi)%nat.

Definition hostChar (c : ascii) : bool :=
  inRange 97 122 c || Ascii.eqb c ".".

Definition endsAuthority (c : ascii) : bool :=
  Ascii.eqb c "/" || Ascii.eqb c "?" || Ascii.eqb c "#".

Definition endsPath (c : ascii) : bool :=
  Ascii.eqb c "?" || Ascii.eqb c "#".

Fixpoint allChars (p : ascii -> bool) (s : string) : bool :=
  match s with
  | EmptyString => true
  | String c t => p c && allChars p t
  end.

(** The longest prefix without a character of [stop], and the rest. *)
Fixpoint break (stop : ascii -> bool) (s : string) : string * string :=
  match s with
  | EmptyString => (EmptyString, EmptyString)
  | String c t =>
      if stop c then (EmptyString, s)
      else let (a, b) := break stop t in (String c a, b)
  end.

(** Model of the platform's [new URL(s)] (WHATWG URL Standard), which is not
    part of the repository; [None] stands for the [TypeError] the constructor
    throws.  The model covers the strings [https://host/path?query#fragment]
    whose host is written in lower-case letters and dots and whose path has
    neither dot segments nor characters the standard rewrites: there, as in
    the standard, the origin is the scheme and host, and the path name runs up
    to the first [?] or [#], and is [/] when empty.  It also covers two kinds
    of strings the standard rejects: a string without a scheme (there is no
    base URL to resolve it against) and a host that holds a space (a forbidden
    host code point).  On any other string (another scheme, a port,
    credentials, digits, hyphens, upper-case or percent-encoded characters in
    the host, ...) the answer [None] of the model tells nothing about the
    platform: the general theorems hold for any parser, and the scenarios
    stay within the strings covered. *)
Definition parse (s : string) : option t :=
  if String.prefix "https://" s then
    let (host, rest) := break endsAuthority (JS.drop 8 s) in
    if JS.falsy host || negb (allChars hostChar host) then None
    else
      let (path, _) := break endsPath rest in
      Some {| origin := "https://" ++ host;
              pathname := if JS.falsy path then "/" else path |}
  else None.

End URL.

(** What the collaborators answer.  [None] is a rejected promise (network
    failure, a body that is not the expected JSON). *)
Record Platform := {
  (** [new URL(s)] *)
  URL_new : string -> option URL.t;
  (** [GET /api/v1/reads/link-metadata?url=...]: the status and, when the body
      parses, the metadata. *)
  metadata_service : string -> option (Z * option UrlMetadata);
  (** [GET /api/v1/lists/<id>/items?page=1&limit=50]: the [link] of every
      element of [json.data], in order. *)
  list_service : option (list string);
  (** The chat completion asked for the summary of a link: the content of the
      first choice, when it is a string; [None] when the request fails or
      the answer has no first choice.  A first choice whose content is
      [null] has no counterpart here. *)
  completion_service : string -> option string;
  (** [POST /api/v1/bots/tg/create-read] of the item and the Telegram user
      name: the response status. *)
  storage_service : ReadsItem -> option string -> option Z
}.

(** ** Replies, context and the handler monad *)

Record Button := { label : string; data : string }.

Inductive Reply :=
| Text (text : string)
| Markdown (text : string)
| MarkdownV2 (text : string)
| InlineKeyboard (text : string) (rows : list (list Button)).

Record CallbackQuery := { from_username : option string }.

(** The part of the Telegraf context the handlers use: the session, the
    callback query of the update (absent when the update is a message) and
    the replies sent so far, oldest first. *)
Record Ctx := {
  session : ReadsSession;
  callbackQuery : option CallbackQuery;
  replies : list Reply
}.

Inductive Res (A : Type) :=
| Ok (a : A)
| Throw (message : string).
Arguments Ok {A} a.
Arguments Throw {A} message.

Definition M (A : Type) : Type := Ctx -> Res A * Ctx.

Definition ret {A} (a : A) : M A := fun c => (Ok a, c).

Definition bind {A B} (m : M A) (k : A -> M B) : M B :=
  fun c => match m c with
           | (Ok a, c') => k a c'
           | (Throw e, c') => (Throw e, c')
           end.

Definition throw {A} (message : string) : M A := fun c => (Throw message, c).

(** [try { m } catch (e) { h e.message }] *)
Definition try_catch {A} (m : M A) (h : string -> M A) : M A :=
  fun c => match m c with
           | (Ok a, c') => (Ok a, c')
           | (Throw e, c') => h e c'
           end.

(** A call that touches neither the session nor the chat. *)
Definition lift {A} (r : Res A) : M A := fun c => (r, c).

Declare Scope js_scope.
Delimit Scope js_scope with js.
Notation "x <- m ;; k" := (bind m (fun x => k))
  (at level 61, m at next level, right associativity) : js_scope.
Notation "m ;; k" := (bind m (fun _ => k))
  (at level 61, right associativity) : js_scope.
Open Scope js_scope.

Definition getSession : M ReadsSession := fun c => (Ok (session c), c).

Definition setSession (s : ReadsSession) : M unit :=
  fun c => (Ok tt, {| session := s; callbackQuery := callbackQuery c; replies := replies c |}).

Definition getItem : M ReadsItem := s <- getSession ;; ret (item s).

(** [ctx.session.state = st] *)
Definition setState (st : ReadsState) : M unit :=
  s <- getSession ;; setSession {| state := st; item := item s |}.

(** [ctx.session.item = it] and the assignments to a field of the item. *)
Definition setItem (it : ReadsItem) : M unit :=
  s <- getSession ;; setSession {| state := state s; item := it |}.

Definition with_title (v : string) (i : ReadsItem) : ReadsItem :=
  {| title := v; link := link i; description := description i;
     image_url := image_url i; taxonomy := taxonomy i; tags := tags i |}.
Definition with_link (v : string) (i : ReadsItem) : ReadsItem :=
  {| title := title i; link := v; description := description i;
     image_url := image_url i; taxonomy := taxonomy i; tags := tags i |}.
Definition with_description (v : string) (i : ReadsItem) : ReadsItem :=
  {| title := title i; link := link i; description := v;
     image_url := image_url i; taxonomy := taxonomy i; tags := tags i |}.
Definition with_image_url (v : string) (i : ReadsItem) : ReadsItem :=
  {| title := title i; link := link i; description := description i;
     image_url := v; taxonomy := taxonomy i; tags := tags i |}.
Definition with_taxonomy (v : list SectorSlug) (i : ReadsItem) : ReadsItem :=
  {| title := title i; link := link i; description := description i;
     image_url := image_url i; taxonomy := v; tags := tags i |}.
Definition with_tags (v : list ReadsTag) (i : ReadsItem) : ReadsItem :=
  {| title := title i; link := link i; description := description i;
     image_url := image_url i; taxonomy := taxonomy i; tags := v |}.

Definition updItem (f : ReadsItem -> ReadsItem) : M unit :=
  i <- getItem ;; setItem (f i).

(** [await ctx.reply(...)] *)
Definition reply (r : Reply) : M unit :=
  fun c => (Ok tt, {| session := session c; callbackQuery := callbackQuery c;
                      replies := replies c ++ [r] |}).

(** ** Utils (reads.ts, lines 103-220) *)

Definition markdownSpecial (c : ascii) : bool :=
  existsb (Ascii.eqb c)
    (list_ascii_of_string "-_*[,]()~`>#+=|{}.!").

(** The full-width commercial at U+FF20, as its three UTF-8 bytes. *)
Definition fullwidthAt : string :=
  String (ascii_of_nat 239) (String (ascii_of_nat 188) (String (ascii_of_nat 160) EmptyString)).

Definition cleanTextForMarkdown (str : string) : string :=
  let s1 := JS.replaceAll markdownSpecial (fun c => String "\" (String c EmptyString)) str in
  let s2 := JS.replaceAll (Ascii.eqb (ascii_of_nat 10)) (fun _ => " ") s1 in
  let s3 := JS.collapseSpaces false s2 in
  JS.replaceAll (Ascii.eqb "@") (fun _ => fullwidthAt) s3.

Definition getCleanItem (i : ReadsItem) : ReadsItem :=
  with_image_url (cleanTextForMarkdown (image_url i))
    (with_description (cleanTextForMarkdown (description i))
       (with_title (cleanTextForMarkdown (title i)) i)).

Definition helpText : string :=
  JS.nl ++ "For questions or feedback, please post in the Delphi Engineering telegram channel:"
  ++ JS.nl ++ JS.nl ++ "[ENGINEERING] Delphi Engineering" ++ JS.nl.

(** [getOptionLabel(options, option)]: the title of the first option with
    that slug; the slug is [undefined] when the list it is read from is
    empty. *)
Definition getOptionLabel {T} (eqb : T -> T -> bool) (options : list (Option T))
    (choice : option T) : option string :=
  match choice with
  | None => None
  | Some o =>
      match find (fun x => eqb (slug x) o) options with
      | Some found => Some (title_of found)
      | None => None
      end
  end.

(** [v || ''] *)
Definition orEmpty (v : option string) : string :=
  match v with Some s => s | None => EmptyString end.

Definition previewText (s : ReadsSession) : string :=
  let cleanItem := getCleanItem (item s) in
  "here is what we've got so far:" ++ JS.nl
  ++ JS.nl ++ "__*Title*__" ++ JS.nl
  ++ title cleanItem ++ JS.nl
  ++ JS.nl ++ "__*Description*__" ++ JS.nl
  ++ description cleanItem ++ JS.nl
  ++ JS.nl ++ "__*Sector*__" ++ JS.nl
  ++ orEmpty (getOptionLabel SectorSlug_eqb sectors (hd_error (taxonomy (item s)))) ++ JS.nl
  ++ JS.nl ++ "__*Type*__" ++ JS.nl
  ++ orEmpty (getOptionLabel ReadsTag_eqb types (hd_error (tags (item s)))) ++ JS.nl.

(** Lines 150-161 of [normalizeUrl]: the scheme and the alias hosts. *)
Definition rewriteUrl (url : string) : string :=
  let cleanUrl := url in
  let cleanUrl := if negb (JS.startsWith cleanUrl "http") then "https://" ++ cleanUrl else cleanUrl in
  let cleanUrl := JS.replace cleanUrl "http://" "https://" in
  let cleanUrl := JS.replace cleanUrl "vxtwitter.com" "x.com" in
  let cleanUrl := JS.replace cleanUrl "twitter.com" "x.com" in
  cleanUrl.

Definition INVALID_URL := "Invalid URL".

(** [defaultTagsForUrl]: the tags of the first key the url includes. *)
Definition defaultTagsForUrl (url : string) : list ReadsTag :=
  match find (fun kv => JS.includes url (fst kv)) defaultTagsForDomain with
  | Some (_, domainTags) => domainTags
  | None => []
  end.

(** The description stored from the metadata (lines 423-426). *)
Definition metadataDescription (d : option string) : string :=
  match d with
  | Some description =>
      if (negb (JS.falsy description) && (500 <? String.length description)%nat)
      then JS.substring0 497 description ++ "..."
      else description
  | None => EmptyString
  end.

Fixpoint chunk2 {A} (l : list A) : list (list A) :=
  match l with
  | [] => []
  | [a] => [[a]]
  | a :: b :: t => [a; b] :: chunk2 t
  end.

Definition mainMenu : list (list Button) :=
  [ [ {| label := "Set Title"; data := "settitle" |};
      {| label := "Set Description"; data := "setdescription" |} ];
    [ {| label := "Set Type"; data := "settype" |};
      {| label := "Set Sector"; data := "setsector" |} ];
    [ {| label := "Start Over"; data := "new" |};
      {| label := "Help"; data := "help" |} ];
    [ {| label := "Publish It!"; data := "publish" |} ] ].

Definition FETCH_FAILED := "fetch failed".
Definition JSON_ERROR := "Unexpected end of JSON input".
Definition FETCH_METADATA_ERROR := "fetch url metadata error".
Definition NO_CALLBACK_QUERY := "Cannot read properties of undefined (reading 'from')".

Section Bot.

Variable P : Platform.

Definition normalizeUrl (url : string) : Res string :=
  let cleanUrl := rewriteUrl url in
  if JS.includes cleanUrl "x.com" then
    match URL_new P cleanUrl with
    | Some u => Ok (URL.origin u ++ URL.pathname u)
    | None => Throw INVALID_URL
    end
  else Ok cleanUrl.

Definition ensureNonDuplicateLink (link : string) : Res unit :=
  match list_service P with
  | None => Throw FETCH_FAILED
  | Some page =>
      let matches := filter (fun read => String.eqb read link) page in
      if (0 <? List.length matches)%nat then Throw ERROR_DUPLICATE_READ else Ok tt
  end.

Definition fetchUrlMetadata (url : string) : Res UrlMetadata :=
  match metadata_service P url with
  | None => Throw FETCH_FAILED
  | Some (status, body) =>
      if (status =? 200)%Z then
        match body with
        | Some json => Ok json
        | None => Throw JSON_ERROR
        end
      else Throw FETCH_METADATA_ERROR
  end.

(** ai.ts: [res.choices[0].message.content] is returned as it is, and
    whatever goes wrong on the way is rethrown as [OPENAI_ERROR]. *)
Definition fetchUrlSummary (url : string) : Res string :=
  match completion_service P url with
  | Some content => Ok content
  | None => Throw OPENAI_ERROR
  end.

Definition ensureLinkSet (callback : M unit) : M unit :=
  i <- getItem ;;
  if JS.falsy (link i) then reply (Text "send me a link first")
  else callback.

(** *** Telegram helpers (lines 228-291) *)

Definition displayMenu : M unit :=
  reply (InlineKeyboard "What would you like to do?" mainMenu).

Definition replyWithPreview : M unit :=
  s <- getSession ;;
  reply (MarkdownV2 (previewText s)) ;;
  displayMenu.

Definition displayOptionMenu {T} (show : T -> string) (options : list (Option T))
    (command choice : string) : M unit :=
  let buttonRows :=
    map (map (fun o => {| label := title_of o; data := command ++ "_" ++ show (slug o) |}))
        (chunk2 options) in
  reply (InlineKeyboard ("Select a " ++ choice ++ ": ") buttonRows).

Definition resetState : M unit :=
  setState none ;;
  setItem createNewItem.

(** *** Handlers (lines 299-380) *)

Definition handleNew : M unit :=
  resetState ;;
  setState await_url ;;
  reply (Text "what url do you want post?").

Definition postRead : M unit :=
  fun c =>
    match callbackQuery c with
    | None => (Throw NO_CALLBACK_QUERY, c)
    | Some q =>
        (let tg_username := from_username q in
         reply (Text "Attempting to publish...") ;;
         i <- getItem ;;
         match storage_service P i tg_username with
         | None => throw FETCH_FAILED
         | Some status =>
             if (status =? 403)%Z then throw ERROR_UNAUTHORIZED
             else if (status =? 409)%Z then throw ERROR_DUPLICATE_READ
             else if (201 <? status)%Z then throw ERROR_UNKNOWN
             else ret tt
         end) c
    end.

Definition handlePost : M unit :=
  ensureLinkSet
    (try_catch
       (postRead ;;
        resetState ;;
        reply (Text "Item has been published. Paste another URL to start over."))
       (fun e =>
          if String.eqb e ERROR_UNAUTHORIZED then
            reply (Text "Unauthorized: reach out to engineering for assistance.")
          else if String.eqb e ERROR_DUPLICATE_READ then
            reply (Text "Oops, this item was already added recently.") ;;
            resetState
          else
            reply (Text "Oops, something went wrong - try to /publish again or start over with /new"))).

Definition handleHelp : M unit :=
  ensureLinkSet (reply (Text helpText)).

Definition handleSetDescription : M unit :=
  ensureLinkSet
    (setState await_description ;;
     reply (Text ("what description do you want? type " ++ JS.quote ++ "none" ++ JS.quote
                  ++ " for no description"))).

Definition handleSetOption {T} (show : T -> string) (options : list (Option T))
    (command choice : string) : M unit :=
  ensureLinkSet (displayOptionMenu show options command choice).

Definition handleSetTaxonomy : M unit :=
  handleSetOption sectorSlug sectors "setsector" "sector".

Definition handleSetTag : M unit :=
  handleSetOption tagSlug types "settype" "type".

Definition handleSetTitle : M unit :=
  ensureLinkSet
    (setState await_title ;;
     reply (Text "what title do you want?")).

Definition nextState : M unit :=
  s <- getSession ;;
  if ReadsState_eqb (state s) build then
    if JS.falsy (title (item s)) then handleSetTitle
    else if (List.length (taxonomy (item s)) <? 1)%nat then handleSetTaxonomy
    else if (List.length (tags (item s)) <? 1)%nat then handleSetTag
    else replyWithPreview
  else ret tt.

Definition nextBuildState : M unit :=
  setState build ;;
  nextState.

(** *** Update handlers (lines 388-454) *)

Definition handleUpdateDescription (description : string) : M unit :=
  if (500 <? String.length description)%nat then
    reply (Text "sorry, that description too long") ;;
    handleSetDescription
  else
    updItem (with_description (if String.eqb description "none" then EmptyString else description)) ;;
    nextBuildState.

Definition handleUpdateTitle (title : string) : M unit :=
  updItem (with_title title) ;;
  nextBuildState.

(** Whether a [try]/[catch] block of [handleUpdateUrl] ran to its end or left
    the handler with [return]. *)
Inductive Flow := Continue | Return.

Definition handleUpdateUrl (url : string) : M unit :=
  resetState ;;
  reply (Text "fetching that url, hang on a sec...") ;;
  cleanUrl <- lift (normalizeUrl url) ;;
  updItem (with_link cleanUrl) ;;
  flow <-
    try_catch
      (metadata <- lift (fetchUrlMetadata cleanUrl) ;;
       lift (ensureNonDuplicateLink cleanUrl) ;;
       updItem (with_title (orEmpty (md_title metadata))) ;;
       updItem (with_tags (defaultTagsForUrl cleanUrl)) ;;
       updItem (with_description (metadataDescription (md_description metadata))) ;;
       updItem (with_image_url (orEmpty (md_image metadata))) ;;
       ret Continue)
      (fun e =>
         if String.eqb e ERROR_DUPLICATE_READ then
           reply (Text "Oops, this url was recently added already") ;;
           resetState ;;
           ret Return
         else
           try_catch
             (summary <- lift (fetchUrlSummary cleanUrl) ;;
              updItem (with_description summary) ;;
              updItem (with_title cleanUrl) ;;
              updItem (with_image_url EmptyString) ;;
              ret Continue)
             (fun err =>
                if String.eqb err OPENAI_ERROR then
                  reply (Text "sorry, I could not fetch that url") ;;
                  handleNew ;;
                  ret Return
                else ret Continue)) ;;
  match flow with
  | Return => ret tt
  | Continue => setState build ;; nextState
  end.

(** *** Bot setup (lines 461-530) *)

Inductive Command :=
| help | new | publish | preview | setdescription | settitle | settype | setsector.

(** [bot.command(name, handler)] *)
Definition bot_command (name : Command) : M unit :=
  match name with
  | help => handleHelp
  | new => handleNew
  | publish => handlePost
  | preview => replyWithPreview
  | setdescription => handleSetDescription
  | settitle => handleSetTitle
  | settype => handleSetTag
  | setsector => handleSetTaxonomy
  end.

(** [bot.action(name, handler)]: no action is registered for [preview]. *)
Definition bot_action (name : Command) : option (M unit) :=
  match name with
  | help => Some handleHelp
  | new => Some handleNew
  | publish => Some handlePost
  | preview => None
  | setdescription => Some handleSetDescription
  | settitle => Some handleSetTitle
  | settype => Some handleSetTag
  | setsector => Some handleSetTaxonomy
  end.

(** [bot.action(/setsector_(.+)/, ...)] and [bot.action(/settype_(.+)/, ...)],
    on the slug carried by a button of the option menus. *)
Definition action_setsector (s : SectorSlug) : M unit :=
  updItem (with_taxonomy [s]) ;;
  nextState.

Definition action_settype (t : ReadsTag) : M unit :=
  updItem (with_tags [t]) ;;
  nextState.

(** [bot.on(message('text'), ...)]: the texts that no earlier trigger
    ([state], a text starting with [http:] or [https:], a command) has
    taken. *)
Definition onText (text : string) : M unit :=
  s <- getSession ;;
  match state s with
  | await_url => handleUpdateUrl text
  | await_description => handleUpdateDescription text
  | await_title => handleUpdateTitle text
  | _ => reply (Text "paste a url to get started")
  end.

(** [bot.hears(/^https?\:/, ...)] *)
Definition hearsUrl (text : string) : bool :=
  JS.startsWith text "http:" || JS.startsWith text "https:".

End Bot.

(** ** The bot as a whole *)

(** The strings of the type [ReadsState]. *)
Definition stateSlug (st : ReadsState) : string :=
  match st with
  | await_description => "await_description"
  | await_title => "await_title"
  | await_url => "await_url"
  | build => "build"
  | none => "none"
  end.

Module JSON.

Definition hexDigit (n : nat) : string :=
  String (nth n (list_ascii_of_string "0123456789abcdef") "0"%char) EmptyString.

(** A character inside a JSON string literal. *)
Definition escape (c : ascii) : string :=
  let n := nat_of_ascii c in
  if (n =? 34)%nat then "\" ++ JS.quote
  else if (n =? 92)%nat then "\\"
  else if (n =? 8)%nat then "\b"
  else if (n =? 9)%nat then "\t"
  else if (n =? 10)%nat then "\n"
  else if (n =? 12)%nat then "\f"
  else if (n =? 13)%nat then "\r"
  else if (n <? 32)%nat then "\u00" ++ hexDigit (n / 16) ++ hexDigit (n mod 16)
  else String c EmptyString.

Definition str (s : string) : string :=
  JS.quote ++ JS.replaceAll (fun _ => true) escape s ++ JS.quote.

(** An array of already printed values, its opening bracket at [indent]. *)
Definition array (indent : string) (values : list string) : string :=
  match values with
  | [] => "[]"
  | _ => "[" ++ JS.nl
         ++ String.concat ("," ++ JS.nl) (map (fun v => indent ++ "  " ++ v) values)
         ++ JS.nl ++ indent ++ "]"
  end.

(** An object with at least one member, its opening brace at [indent]. *)
Definition object (indent : string) (members : list (string * string)) : string :=
  "{" ++ JS.nl
  ++ String.concat ("," ++ JS.nl)
       (map (fun kv => indent ++ "  " ++ str (fst kv) ++ ": " ++ snd kv) members)
  ++ JS.nl ++ indent ++ "}".

(** [JSON.stringify(session, null, 2)] *)
Definition stringify (s : ReadsSession) : string :=
  object EmptyString
    [ ("state", str (stateSlug (state s)));
      ("item",
       object "  "
         [ ("title", str (title (item s)));
           ("link", str (link (item s)));
           ("description", str (description (item s)));
           ("image_url", str (image_url (item s)));
           ("taxonomy", array "    " (map (fun x => str (sectorSlug x)) (taxonomy (item s))));
           ("tags", array "    " (map (fun x => str (tagSlug x)) (tags (item s)))) ]) ].

End JSON.

(** [bot.hears('state', ...)] *)
Definition hearsState : M unit :=
  s <- getSession ;;
  reply (Markdown ("```" ++ JS.nl ++ JSON.stringify s ++ JS.nl ++ "```")).

(** The context of an update on the session [s]: a message carries no
    callback query, a pressed button does. *)
Definition messageCtx (s : ReadsSession) : Ctx :=
  {| session := s; callbackQuery := None; replies := [] |}.

Definition actionCtx (s : ReadsSession) (query : CallbackQuery) : Ctx :=
  {| session := s; callbackQuery := Some query; replies := [] |}.

(** The name under which a command or an action is registered. *)
Definition commandName (name : Command) : string :=
  match name with
  | help => "help"
  | new => "new"
  | publish => "publish"
  | preview => "preview"
  | setdescription => "setdescription"
  | settitle => "settitle"
  | settype => "settype"
  | setsector => "setsector"
  end.

(** The commands in the order [readsBot] registers them (lines 472-479). *)
Definition registeredCommands : list Command :=
  [help; new; publish; preview; setdescription; settitle; settype; setsector].

(** What [bot.command] makes of a text message.  Telegraf reads the command
    off the message, not off its text alone: when the first entity of the
    message is a [bot_command] at offset 0 that is addressed to this bot,
    [command] is its text without the slash and without the name of the bot;
    it is [None] for a message that does not start with such an entity.  The
    first registered command of that name takes the message. *)
Definition commandNamed (command : option string) : option Command :=
  match command with
  | Some c => find (fun name => String.eqb (commandName name) c) registeredCommands
  | None => None
  end.

(** The updates the bot reacts to: a message that is one of the registered
    commands, a callback query whose data is the name of a registered action
    or the data of a button of the sector and type menus, and a text message
    with the command Telegraf reads off it, if any. *)
Inductive Update :=
| CommandUpdate (name : Command)
| ActionUpdate (name : Command) (query : CallbackQuery)
| SectorUpdate (choice : SectorSlug) (query : CallbackQuery)
| TypeUpdate (choice : ReadsTag) (query : CallbackQuery)
| TextUpdate (text : string) (command : option string).

(** The middleware chain of [readsBot], in the order of registration, on the
    session [s]: the outcome and the context at the end.  A text message goes
    to the command it carries, if that is a registered one, before any of
    the text triggers sees it: [/new] runs [handleNew] in every state, and
    only a text that carries no registered command reaches [hears] and the
    text handler. *)
Definition handleUpdate (P : Platform) (u : Update) (s : ReadsSession) : Res unit * Ctx :=
  match u with
  | CommandUpdate name => bot_command P name (messageCtx s)
  | ActionUpdate name query =>
      match bot_action P name with
      | Some handler => handler (actionCtx s query)
      | None => (Ok tt, actionCtx s query)
      end
  | SectorUpdate choice query => action_setsector choice (actionCtx s query)
  | TypeUpdate choice query => action_settype choice (actionCtx s query)
  | TextUpdate text command =>
      match commandNamed command with
      | Some name => bot_command P name (messageCtx s)
      | None =>
          if String.eqb text "state" then hearsState (messageCtx s)
          else if hearsUrl text then handleUpdateUrl P text (messageCtx s)
          else onText P text (messageCtx s)
      end
  end.

(** The session after a sequence of updates, starting from [s]. *)
Fixpoint sessionAfter (P : Platform) (us : list Update) (s : ReadsSession) : ReadsSession :=
  match us with
  | [] => s
  | u :: rest => sessionAfter P rest (session (snd (handleUpdate P u s)))
  end.

(** ** Vocabulary of the properties *)

(** The field [nextState] asks for, in the order of its tests (lines
    277-289), under the name the specification gives it. *)
Inductive MissingField := field_title | field_sector | field_tag | field_none.

Definition nextMissingField (i : ReadsItem) : MissingField :=
  if JS.falsy (title i) then field_title
  else if (List.length (taxonomy i) <? 1)%nat then field_sector
  else if (List.length (tags i) <? 1)%nat then field_tag
  else field_none.

(** [p] occurs in [s]: [s] is some text, then [p], then some text. *)
Definition occursIn (p s : string) : Prop := exists a b, s = a ++ p ++ b.

(** The context after one more reply, and after a change of session. *)
Definition replied (c : Ctx) (rs : list Reply) : Ctx :=
  {| session := session c; callbackQuery := callbackQuery c; replies := replies c ++ rs |}.

Definition inSession (c : Ctx) (s : ReadsSession) : Ctx :=
  {| session := s; callbackQuery := callbackQuery c; replies := replies c |}.

(** The context in which the resolution of a link starts: the session is
    reset and the user is told to wait. *)
Definition fetching (c : Ctx) : Ctx :=
  replied (inSession c createDefaultSession) [Text "fetching that url, hang on a sec..."].

(** The outcome of the two calls at the head of the [try] block of
    [handleUpdateUrl]: the metadata, unless one of the calls throws. *)
Definition metadataStage (P : Platform) (cleanUrl : string) : Res UrlMetadata :=
  match fetchUrlMetadata P cleanUrl with
  | Ok metadata =>
      match ensureNonDuplicateLink P cleanUrl with
      | Ok _ => Ok metadata
      | Throw e => Throw e
      end
  | Throw e => Throw e
  end.

(** The draft after the metadata of a link was accepted, and after its
    summary was. *)
Definition metadataItem (cleanUrl : string) (metadata : UrlMetadata) : ReadsItem :=
  {| title := orEmpty (md_title metadata);
     link := cleanUrl;
     description := metadataDescription (md_description metadata);
     image_url := orEmpty (md_image metadata);
     taxonomy := [];
     tags := defaultTagsForUrl cleanUrl |}.

Definition summaryItem (cleanUrl summary : string) : ReadsItem :=
  {| title := cleanUrl;
     link := cleanUrl;
     description := summary;
     image_url := EmptyString;
     taxonomy := [];
     tags := [] |}.

(** The commands registered through [ensureLinkSet]. *)
Definition guardedCommands : list Command :=
  [publish; help; settitle; setdescription; settype; setsector].



(** Replies that several statements mention. *)
Definition attempting : Reply := Text "Attempting to publish...".

Definition describePrompt : Reply :=
  Text ("what description do you want? type " ++ JS.quote ++ "none" ++ JS.quote
        ++ " for no description").

(** The states in which a draft is being built hold a link. *)
Definition linked (s : ReadsSession) : Prop :=
  match state s with
  | await_description | await_title | build => link (item s) <> EmptyString
  | await_url | none => True
  end.

(** The origin of a parsed URL is never empty. *)
Definition originNonEmpty (P : Platform) : Prop :=
  forall s u, URL_new P s = Some u -> URL.origin u <> EmptyString.

(** ** Scenarios *)

(** A platform whose collaborators give the same answer to every request,
    with the parser [URL.parse]: the scenarios below run on it. *)
Definition fixedPlatform (metadata : option (Z * option UrlMetadata))
    (page : option (list string)) (summary : option string) (status : option Z) : Platform :=
  {| URL_new := URL.parse;
     metadata_service := fun _ => metadata;
     list_service := page;
     completion_service := fun _ => summary;
     storage_service := fun _ _ => status |}.

Definition offline : Platform := fixedPlatform None None None None.

(** A metadata answer, a complete draft and a long text. *)
Definition someMetadata : UrlMetadata :=
  {| md_title := Some "Markets wrap"; md_description := Some "Stocks rose.";
     md_image := None |}.

Definition draftItem : ReadsItem :=
  {| title := "Markets wrap"; link := "https://bloomberg.com/a";
     description := "Stocks rose."; image_url := EmptyString;
     taxonomy := [macro_markets]; tags := [news] |}.

Fixpoint repeatChar (c : ascii) (n : nat) : string :=
  match n with
  | O => EmptyString
  | S n' => String c (repeatChar c n')
  end.

Definition untitledMetadata : UrlMetadata :=
  {| md_title := None; md_description := Some "Stocks rose."; md_image := None |}.

(** ** Callback data of the buttons (reads.ts, lines 481-499) *)

(** The actions in the order [readsBot] registers them. *)
Definition registeredActions : list Command :=
  [help; new; publish; setdescription; settitle; settype; setsector].

(** The characters the [.] of a regular expression does not match. *)
Definition lineTerminator (c : ascii) : bool :=
  (nat_of_ascii c =? 10)%nat || (nat_of_ascii c =? 13)%nat.

(** The longest prefix without a line terminator: what a greedy [.+] takes. *)
Fixpoint takeLine (s : string) : string :=
  match s with
  | EmptyString => EmptyString
  | String c t => if lineTerminator c then EmptyString else String c (takeLine t)
  end.

(** [ctx.match[1]] for a trigger [/lit(.+)/] whose [lit] has no operator of
    regular expressions: the leftmost place where [lit] is followed by a
    character that is no line terminator, and the run of such characters
    there. *)
Fixpoint execAfter (lit s : string) : option string :=
  let here :=
    if String.prefix lit s
    then match takeLine (JS.drop (String.length lit) s) with
         | EmptyString => None
         | captured => Some captured
         end
    else None in
  match here with
  | Some captured => Some captured
  | None => match s with
            | EmptyString => None
            | String _ t => execAfter lit t
            end
  end.

(** What the data of a callback query triggers: the first action whose name
    is the data, else the sector action, else the type action, each with
    the text they capture. *)
Inductive ActionMatch :=
| NamedAction (name : Command)
| SectorData (captured : string)
| TypeData (captured : string)
| NoAction.

Definition matchAction (data : string) : ActionMatch :=
  match find (fun name => String.eqb (commandName name) data) registeredActions with
  | Some name => NamedAction name
  | None =>
      match execAfter "setsector_" data with
      | Some captured => SectorData captured
      | None =>
          match execAfter "settype_" data with
          | Some captured => TypeData captured
          | None => NoAction
          end
      end
  end.

(** The buttons of the option menu, row by row (lines 255-260). *)
Definition optionRows {T} (show : T -> string) (options : list (Option T))
    (command : string) : list (list Button) :=
  map (map (fun o => {| label := title_of o; data := command ++ "_" ++ show (slug o) |}))
      (chunk2 options).

(** ** Process start (server.ts, lines 12-56) *)

Module Server.

(** The variables read from [process.env]: each a string, or undefined. *)
Record Env := {
  DELPHI_API_BASE_URL : option string;
  DELPHI_READS_API_KEY : option string;
  DELPHI_READS_BOT_TOKEN : option string;
  DELPHI_READS_WEBHOOK_URL : option string;
  DELPHI_READS_READING_LIST_ID : option string;
  OPENAI_API_KEY : option string;
  DEV : option string;
  PORT : option string
}.

Record DelphiApi := { apiKey : string; baseUrl : string; readingListId : string }.

Record ReadsConfig := { delphiApi : DelphiApi; openaiApi : string; botToken : string }.

(** [PORT || 5555]: the string of the environment, or the number. *)
Inductive Port := EnvPort (text : string) | DefaultPort (number : Z).

(** What the script has computed when it builds the Express application. *)
Record Startup := {
  readsBotConfiguration : ReadsConfig;
  botWebhookUrl : string;
  port : Port;
  (** the target of the smee proxy, started in development only *)
  smeeTarget : option string
}.

(** Truthiness of a variable: set, and not to the empty string. *)
Definition truthy (v : option string) : bool :=
  match v with
  | Some text => negb (JS.falsy text)
  | None => false
  end.

Definition required (name : string) : string :=
  JS.quote ++ name ++ JS.quote ++ " env var is required!".

Definition readsWebhookPath : string := "/webhooks/reads".

Definition portText (p : Port) : string :=
  match p with
  | EnvPort text => text
  | DefaultPort _ => "5555"
  end.

Definition startup (env : Env) : Res Startup :=
  if negb (truthy (DELPHI_READS_READING_LIST_ID env))
  then Throw (required "DELPHI_READS_READING_LIST_ID")
  else if negb (truthy (DELPHI_READS_API_KEY env))
  then Throw (required "DELPHI_READS_API_KEY")
  else if negb (truthy (DELPHI_API_BASE_URL env))
  then Throw (required "DELPHI_API_BASE_URL")
  else if negb (truthy (DELPHI_READS_BOT_TOKEN env))
  then Throw (required "DELPHI_READS_BOT_TOKEN")
  else if negb (truthy (DELPHI_READS_WEBHOOK_URL env))
  then Throw (required "DELPHI_READS_WEBHOOK_URL")
  else if negb (truthy (OPENAI_API_KEY env))
  then Throw (required "OPENAI_API_KEY")
  else
    let port := if truthy (PORT env) then EnvPort (orEmpty (PORT env)) else DefaultPort 5555 in
    Ok {| readsBotConfiguration :=
            {| botToken := orEmpty (DELPHI_READS_BOT_TOKEN env);
               openaiApi := orEmpty (OPENAI_API_KEY env);
               delphiApi :=
                 {| apiKey := orEmpty (DELPHI_READS_API_KEY env);
                    baseUrl := orEmpty (DELPHI_API_BASE_URL env);
                    readingListId := orEmpty (DELPHI_READS_READING_LIST_ID env) |} |};
          botWebhookUrl :=
            if truthy (DEV env) then orEmpty (DELPHI_READS_WEBHOOK_URL env)
            else orEmpty (DELPHI_READS_WEBHOOK_URL env) ++ readsWebhookPath;
          port := port;
          smeeTarget :=
            if truthy (DEV env)
            then Some ("http://localhost:" ++ portText port ++ readsWebhookPath)
            else None |}.

(** [delphiApiUrl] and the three addresses the bot requests (reads.ts, lines
    172-174, 177, 192, 307). *)
Definition delphiApiUrl (path : string) (config : ReadsConfig) : string :=
  baseUrl (delphiApi config) ++ path.

Definition readsUrl (config : ReadsConfig) : string :=
  delphiApiUrl ("/api/v1/lists/" ++ readingListId (delphiApi config)
                ++ "/items?page=1&limit=50") config.

Definition metadataUrl (url : string) (config : ReadsConfig) : string :=
  delphiApiUrl ("/api/v1/reads/link-metadata?url=" ++ url) config.

Definition postReadsUrl (config : ReadsConfig) : string :=
  delphiApiUrl "/api/v1/bots/tg/create-read" config.

End Server.

(** The six variables the script insists on. *)
Definition allRequired (env : Server.Env) : bool :=
  Server.truthy (Server.DELPHI_READS_READING_LIST_ID env)
  && Server.truthy (Server.DELPHI_READS_API_KEY env)
  && Server.truthy (Server.DELPHI_API_BASE_URL env)
  && Server.truthy (Server.DELPHI_READS_BOT_TOKEN env)
  && Server.truthy (Server.DELPHI_READS_WEBHOOK_URL env)
  && Server.truthy (Server.OPENAI_API_KEY env).

(** ** Invariants of the session *)

(** Sector and type hold one value at most. *)
Definition singleValued (s : ReadsSession) : Prop :=
  (List.length (taxonomy (item s)) <= 1)%nat /\ (List.length (tags (item s)) <= 1)%nat.

(** Outside the states in which a draft is being built there is no link. *)
Definition idleUnlinked (s : ReadsSession) : Prop :=
  match state s with
  | await_url | none => link (item s) = EmptyString
  | await_description | await_title | build => True
  end.

(** The state is one of those in which a draft is being built. *)
Definition building (s : ReadsSession) : Prop :=
  state s = build \/ state s = await_title \/ state s = await_description.

(** Every character of [markdownSpecial] comes right after a backslash;
    [escaped] tells whether the character before the string is one. *)
Fixpoint wellEscaped (escaped : bool) (s : string) : bool :=
  match s with
  | EmptyString => true
  | String c t =>
      (if markdownSpecial c then escaped else true) && wellEscaped (Ascii.eqb c "\") t
  end.

(** No white space but single spaces; [afterSpace] tells whether the
    character before the string is a space. *)
Fixpoint singleSpaced (afterSpace : bool) (s : string) : bool :=
  match s with
  | EmptyString => true
  | String c t =>
      if JS.isSpace c
      then Ascii.eqb c " " && negb afterSpace && singleSpaced true t
      else singleSpaced false t
  end.

Fixpoint noChar (c : ascii) (s : string) : bool :=
  match s with
  | EmptyString => true
  | String x t => negb (Ascii.eqb x c) && noChar c t
  end.

(** No two spaces in a row; [afterSpace] tells whether the character before
    the string is a space. *)
Fixpoint noDoubleSpace (afterSpace : bool) (s : string) : bool :=
  match s with
  | EmptyString => true
  | String c t =>
      if Ascii.eqb c " "
      then negb afterSpace && noDoubleSpace true t
      else noDoubleSpace false t
  end.

(** * Properties *)

(** ** The link guard *)

Lemma ensureLinkSet_unset (callback : M unit) (c : Ctx) :
  link (item (session c)) = EmptyString ->
  ensureLinkSet callback c = (Ok tt, replied c [Text "send me a link first"]).
Proof.
  intros Hlink. unfold ensureLinkSet, bind, getItem, getSession, ret, reply, replied.
  cbn. rewrite Hlink. reflexivity.
Qed.

Lemma ensureLinkSet_set (callback : M unit) (c : Ctx) :
  link (item (session c)) <> EmptyString ->
  ensureLinkSet callback c = callback c.
Proof.
  intros Hlink. unfold ensureLinkSet, bind, getItem, getSession, ret.
  cbn. destruct (link (item (session c))); [congruence | reflexivity].
Qed.

(** C7, as the code has it: publish, help, settitle, setdescription, settype
    and setsector, as command and as action, answer a session whose draft has
    no link with the single reply [send me a link first] and leave state and
    draft as they are.  State and draft are left as they are by [preview] as
    well. *)
Theorem link_guard (P : Platform) (c : Ctx) :
  link (item (session c)) = EmptyString ->
  (forall name, In name guardedCommands ->
     bot_command P name c = (Ok tt, replied c [Text "send me a link first"])
     /\ bot_action P name = Some (bot_command P name))
  /\ fst (bot_command P preview c) = Ok tt
  /\ session (snd (bot_command P preview c)) = session c.
Proof.
  intros Hlink. split.
  - intros name Hin. unfold guardedCommands in Hin. cbn in Hin.
    destruct Hin as [<- | [<- | [<- | [<- | [<- | [<- | []]]]]]]; split;
      try reflexivity; cbn [bot_command];
      unfold handlePost, handleHelp, handleSetTitle, handleSetDescription,
        handleSetTag, handleSetTaxonomy, handleSetOption;
      apply ensureLinkSet_unset; exact Hlink.
  - destruct c as [s q rs]. split; reflexivity.
Qed.

Lemma link_guard_witness :
  link (item (session (messageCtx createDefaultSession))) = EmptyString
  /\ bot_command offline publish (messageCtx createDefaultSession)
     = (Ok tt, replied (messageCtx createDefaultSession) [Text "send me a link first"]).
Proof.
  split; [reflexivity |].
  apply (link_guard offline (messageCtx createDefaultSession) eq_refl).
  left; reflexivity.
Defined.

(** C7 as stated fails for [preview]: on the default session, whose draft has
    no link, the command sends the preview and the menu and never asks for a
    link. *)
Lemma preview_not_guarded :
  link (item createDefaultSession) = EmptyString
  /\ replies (snd (bot_command offline preview (messageCtx createDefaultSession)))
     = [MarkdownV2 (previewText createDefaultSession);
        InlineKeyboard "What would you like to do?" mainMenu]
  /\ ~ In (Text "send me a link first")
          (replies (snd (bot_command offline preview (messageCtx createDefaultSession)))).
Proof.
  split; [reflexivity | split; [reflexivity |]].
  cbn. intros [H | [H | []]]; discriminate H.
Qed.

(** ** Completeness of the draft *)

Lemma nextState_build (c : Ctx) :
  state (session c) = build ->
  nextState c =
  match nextMissingField (item (session c)) with
  | field_title => handleSetTitle c
  | field_sector => handleSetTaxonomy c
  | field_tag => handleSetTag c
  | field_none => replyWithPreview c
  end.
Proof.
  intros Hst. unfold nextState, nextMissingField, bind, getSession.
  rewrite Hst. cbn [ReadsState_eqb].
  destruct (JS.falsy (title (item (session c)))); [reflexivity |].
  destruct (List.length (taxonomy (item (session c))) <? 1)%nat; [reflexivity |].
  destruct (List.length (tags (item (session c))) <? 1)%nat; reflexivity.
Qed.

Lemma nextState_idle (c : Ctx) :
  state (session c) <> build -> nextState c = (Ok tt, c).
Proof.
  intros Hst. unfold nextState, bind, getSession, ret.
  destruct (state (session c)); try reflexivity. congruence.
Qed.

(** C8: [nextMissingField] tests title, then sector, then tag.  A draft
    without title gives [field_title] whatever the other fields are (and only
    such a draft does); the answer is [field_none] exactly when title, sector
    and tag are all set; and [nextState], in the [build] state, prompts for
    the field it names. *)
Theorem nextMissingField_order (i : ReadsItem) :
  (nextMissingField i = field_title <-> title i = EmptyString)
  /\ (nextMissingField i = field_sector <-> title i <> EmptyString /\ taxonomy i = [])
  /\ (nextMissingField i = field_tag <->
        title i <> EmptyString /\ taxonomy i <> [] /\ tags i = [])
  /\ (nextMissingField i = field_none <->
        title i <> EmptyString /\ taxonomy i <> [] /\ tags i <> [])
  /\ (forall c, session c = {| state := build; item := i |} ->
        nextState c =
        match nextMissingField i with
        | field_title => handleSetTitle c
        | field_sector => handleSetTaxonomy c
        | field_tag => handleSetTag c
        | field_none => replyWithPreview c
        end).
Proof.
  assert (Hdispatch : forall c, session c = {| state := build; item := i |} ->
            nextState c =
            match nextMissingField i with
            | field_title => handleSetTitle c
            | field_sector => handleSetTaxonomy c
            | field_tag => handleSetTag c
            | field_none => replyWithPreview c
            end).
  { intros c Hs. rewrite (nextState_build c); rewrite Hs; reflexivity. }
  unfold nextMissingField in *.
  destruct (title i) as [|a t]; destruct (taxonomy i) as [|x xs];
    destruct (tags i) as [|y ys]; cbn in *;
    (repeat split; [intuition congruence .. | exact Hdispatch]).
Qed.

(** A draft with only the sector set asks for the title, never for the tag. *)
Example nextMissingField_sector_only (s : SectorSlug) :
  nextMissingField (with_taxonomy [s] createNewItem) = field_title.
Proof. reflexivity. Qed.

(** ** Default tags *)

Lemma defaultTagsForUrl_first (url : string) :
  (exists domain domainTags,
      In (domain, domainTags) defaultTagsForDomain
      /\ JS.includes url domain = true
      /\ defaultTagsForUrl url = domainTags)
  \/ ((forall domain domainTags,
         In (domain, domainTags) defaultTagsForDomain -> JS.includes url domain = false)
      /\ defaultTagsForUrl url = []).
Proof.
  unfold defaultTagsForUrl.
  destruct (find (fun kv => JS.includes url (fst kv)) defaultTagsForDomain)
    as [[domain domainTags]|] eqn:Hfind.
  - left. exists domain, domainTags. apply find_some in Hfind. cbn in Hfind.
    destruct Hfind as [Hin Hinc]. auto.
  - right. split; [| reflexivity]. intros domain domainTags Hin.
    exact (find_none _ _ Hfind (domain, domainTags) Hin).
Qed.

(** ** URL resolution, path by path *)

Ltac run_handler :=
  unfold handleUpdateUrl, handleNew, resetState, updItem, setItem, setState, getItem,
    getSession, setSession, reply, bind, ret, lift, throw, try_catch,
    fetching, replied, inSession;
  cbn [session callbackQuery replies state item fst snd].

Lemma handleUpdateUrl_invalid (P : Platform) (url e : string) (c : Ctx) :
  normalizeUrl P url = Throw e ->
  handleUpdateUrl P url c = (Throw e, fetching c).
Proof.
  intros Hurl. run_handler. rewrite Hurl. reflexivity.
Qed.

Lemma handleUpdateUrl_metadata (P : Platform) (url cleanUrl : string)
    (metadata : UrlMetadata) (c : Ctx) :
  normalizeUrl P url = Ok cleanUrl ->
  metadataStage P cleanUrl = Ok metadata ->
  handleUpdateUrl P url c
  = nextState (inSession (fetching c)
                 {| state := build; item := metadataItem cleanUrl metadata |}).
Proof.
  intros Hurl Hmeta. unfold metadataStage in Hmeta.
  destruct (fetchUrlMetadata P cleanUrl) as [md|] eqn:Hfetch; [| discriminate].
  destruct (ensureNonDuplicateLink P cleanUrl) as [[]|] eqn:Hdup; [| discriminate].
  injection Hmeta as <-.
  run_handler. rewrite Hurl. rewrite Hfetch, Hdup. reflexivity.
Qed.

Lemma handleUpdateUrl_duplicate (P : Platform) (url cleanUrl : string) (c : Ctx) :
  normalizeUrl P url = Ok cleanUrl ->
  metadataStage P cleanUrl = Throw ERROR_DUPLICATE_READ ->
  handleUpdateUrl P url c
  = (Ok tt, replied (fetching c) [Text "Oops, this url was recently added already"]).
Proof.
  intros Hurl Hmeta. unfold metadataStage in Hmeta.
  run_handler. rewrite Hurl.
  destruct (fetchUrlMetadata P cleanUrl) as [md|] eqn:Hfetch.
  - destruct (ensureNonDuplicateLink P cleanUrl) as [[]|] eqn:Hdup; [discriminate |].
    injection Hmeta as ->. reflexivity.
  - injection Hmeta as ->. reflexivity.
Qed.

Lemma handleUpdateUrl_fallback (P : Platform) (url cleanUrl e summary : string) (c : Ctx) :
  normalizeUrl P url = Ok cleanUrl ->
  metadataStage P cleanUrl = Throw e ->
  e <> ERROR_DUPLICATE_READ ->
  fetchUrlSummary P cleanUrl = Ok summary ->
  handleUpdateUrl P url c
  = nextState (inSession (fetching c)
                 {| state := build; item := summaryItem cleanUrl summary |}).
Proof.
  intros Hurl Hmeta He Hsum. unfold metadataStage in Hmeta.
  apply String.eqb_neq in He.
  run_handler. rewrite Hurl.
  destruct (fetchUrlMetadata P cleanUrl) as [md|] eqn:Hfetch.
  - destruct (ensureNonDuplicateLink P cleanUrl) as [[]|] eqn:Hdup; [discriminate |].
    injection Hmeta as ->. rewrite He, Hsum. reflexivity.
  - injection Hmeta as ->. rewrite He, Hsum. reflexivity.
Qed.

Lemma handleUpdateUrl_unresolved (P : Platform) (url cleanUrl e e' : string) (c : Ctx) :
  normalizeUrl P url = Ok cleanUrl ->
  metadataStage P cleanUrl = Throw e ->
  e <> ERROR_DUPLICATE_READ ->
  fetchUrlSummary P cleanUrl = Throw e' ->
  handleUpdateUrl P url c
  = (Ok tt, replied (inSession (fetching c) {| state := await_url; item := createNewItem |})
              [Text "sorry, I could not fetch that url"; Text "what url do you want post?"]).
Proof.
  intros Hurl Hmeta He Hsum. unfold metadataStage in Hmeta.
  apply String.eqb_neq in He.
  assert (He' : e' = OPENAI_ERROR).
  { unfold fetchUrlSummary in Hsum.
    destruct (completion_service P cleanUrl); [discriminate | congruence]. }
  subst e'.
  run_handler. rewrite Hurl.
  destruct (fetchUrlMetadata P cleanUrl) as [md|] eqn:Hfetch.
  - destruct (ensureNonDuplicateLink P cleanUrl) as [[]|] eqn:Hdup; [discriminate |].
    injection Hmeta as ->. rewrite He, Hsum. cbn. rewrite <- !app_assoc. reflexivity.
  - injection Hmeta as ->. rewrite He, Hsum. cbn. rewrite <- !app_assoc. reflexivity.
Qed.

Lemma fetchUrlMetadata_throws (P : Platform) (url e : string) :
  fetchUrlMetadata P url = Throw e ->
  metadataStage P url = Throw e /\ e <> ERROR_DUPLICATE_READ.
Proof.
  intros Hfetch. unfold metadataStage. rewrite Hfetch. split; [reflexivity |].
  unfold fetchUrlMetadata in Hfetch.
  destruct (metadata_service P url) as [[status [json|]]|];
    [destruct (status =? 200)%Z | destruct (status =? 200)%Z |];
    try discriminate; injection Hfetch as <-; discriminate.
Qed.

Lemma ensureNonDuplicateLink_page (P : Platform) (page : list string) (link : string) :
  list_service P = Some page ->
  (In link page -> ensureNonDuplicateLink P link = Throw ERROR_DUPLICATE_READ)
  /\ (~ In link page -> ensureNonDuplicateLink P link = Ok tt).
Proof.
  intros Hpage. unfold ensureNonDuplicateLink. rewrite Hpage.
  destruct (filter (fun read => String.eqb read link) page) as [|m ms] eqn:Hfilter.
  - split; [| reflexivity]. intros Hin.
    assert (Hm : In link (filter (fun read => String.eqb read link) page)).
    { apply filter_In. split; [exact Hin | apply String.eqb_refl]. }
    rewrite Hfilter in Hm. destruct Hm.
  - split; [reflexivity |]. intros Hnot. exfalso. apply Hnot.
    assert (Hm : In m (filter (fun read => String.eqb read link) page)).
    { rewrite Hfilter. left; reflexivity. }
    apply filter_In in Hm. destruct Hm as [Hin Heq].
    apply String.eqb_eq in Heq. subst m. exact Hin.
Qed.

(** C2: once the metadata service has answered with success, a link that is
    string-equal to the link of an item of the first page of the list makes
    the guard throw [ERROR_DUPLICATE_READ]; the handler then notifies the
    user and leaves the session reset, in state [none] with an empty draft:
    nothing of the metadata reaches the draft. *)
Theorem duplicate_link_resets (P : Platform) (url cleanUrl : string)
    (metadata : UrlMetadata) (page : list string) (c : Ctx) :
  normalizeUrl P url = Ok cleanUrl ->
  fetchUrlMetadata P cleanUrl = Ok metadata ->
  list_service P = Some page ->
  In cleanUrl page ->
  ensureNonDuplicateLink P cleanUrl = Throw ERROR_DUPLICATE_READ
  /\ handleUpdateUrl P url c
     = (Ok tt, {| session := {| state := none; item := createNewItem |};
                  callbackQuery := callbackQuery c;
                  replies := replies c ++ [Text "fetching that url, hang on a sec...";
                                           Text "Oops, this url was recently added already"] |}).
Proof.
  intros Hurl Hfetch Hpage Hin.
  pose proof (proj1 (ensureNonDuplicateLink_page P page cleanUrl Hpage) Hin) as Hdup.
  split; [exact Hdup |].
  rewrite (handleUpdateUrl_duplicate P url cleanUrl c Hurl).
  - unfold replied, fetching, inSession, createDefaultSession. cbn.
    rewrite <- app_assoc. reflexivity.
  - unfold metadataStage. rewrite Hfetch, Hdup. reflexivity.
Qed.

Lemma duplicate_link_resets_witness :
  handleUpdateUrl
    (fixedPlatform (Some (200%Z, Some someMetadata)) (Some ["https://bloomberg.com/a"]) None None)
    "bloomberg.com/a" (messageCtx createDefaultSession)
  = (Ok tt, {| session := createDefaultSession;
               callbackQuery := None;
               replies := [Text "fetching that url, hang on a sec...";
                           Text "Oops, this url was recently added already"] |}).
Proof.
  apply (duplicate_link_resets
           (fixedPlatform (Some (200%Z, Some someMetadata)) (Some ["https://bloomberg.com/a"])
              None None)
           "bloomberg.com/a" "https://bloomberg.com/a" someMetadata ["https://bloomberg.com/a"]
           (messageCtx createDefaultSession)).
  - reflexivity.
  - reflexivity.
  - reflexivity.
  - left; reflexivity.
Defined.

(** [nextState] leaves [build] for [await_title] only, when it asks for the
    title of a draft that has a link. *)
Lemma nextState_state (c : Ctx) :
  state (session (snd (nextState c)))
  = if ReadsState_eqb (state (session c)) build
       && (JS.falsy (title (item (session c)))
           && negb (JS.falsy (link (item (session c)))))
    then await_title else state (session c).
Proof.
  destruct c as [[st it] q rs].
  unfold nextState, handleSetTitle, handleSetTaxonomy, handleSetTag, handleSetOption,
    replyWithPreview, displayMenu, displayOptionMenu, ensureLinkSet,
    setState, getItem, getSession, setSession, reply, bind, ret.
  cbn.
  destruct st; cbn; auto.
  repeat (match goal with
          | |- context [if ?b then _ else _] => destruct b; cbn
          end); auto.
Qed.

(** [nextState] sends prompts and may move the state to [await_title]; it
    never touches the draft and, the fields of the draft being strings, it
    returns. *)
Lemma nextState_item (c : Ctx) :
  fst (nextState c) = Ok tt
  /\ item (session (snd (nextState c))) = item (session c)
  /\ callbackQuery (snd (nextState c)) = callbackQuery c.
Proof.
  destruct c as [[st it] q rs].
  unfold nextState, handleSetTitle, handleSetTaxonomy, handleSetTag, handleSetOption,
    replyWithPreview, displayMenu, displayOptionMenu, ensureLinkSet,
    setState, getItem, getSession, setSession, reply, bind, ret.
  cbn.
  destruct st; cbn; auto.
  repeat (match goal with
          | |- context [if ?b then _ else _] => destruct b; cbn
          end); auto.
Qed.

(** C3, as the code has it: when the [try] block fails with anything but the
    duplicate error, the summary of the link is asked for.  If it comes, the
    draft gets the normalized link as link and as title, no image, and the
    summary (here for a summary of at most 500 characters) as description,
    and the session is in state [build]; if it does not, the user is told so
    and the handler goes on as [handleNew]: empty draft, state [await_url],
    prompt for a url. *)
Theorem summary_fallback (P : Platform) (url cleanUrl e : string) (c : Ctx) :
  normalizeUrl P url = Ok cleanUrl ->
  metadataStage P cleanUrl = Throw e ->
  e <> ERROR_DUPLICATE_READ ->
  (forall summary, fetchUrlSummary P cleanUrl = Ok summary ->
     fst (handleUpdateUrl P url c) = Ok tt
     /\ state (session (snd (handleUpdateUrl P url c))) = build
     /\ link (item (session (snd (handleUpdateUrl P url c)))) = cleanUrl
     /\ title (item (session (snd (handleUpdateUrl P url c)))) = cleanUrl
     /\ image_url (item (session (snd (handleUpdateUrl P url c)))) = EmptyString
     /\ ((String.length summary <= 500)%nat ->
         description (item (session (snd (handleUpdateUrl P url c)))) = summary))
  /\ (forall e', fetchUrlSummary P cleanUrl = Throw e' ->
     e' = OPENAI_ERROR
     /\ handleUpdateUrl P url c
        = handleNew (replied (fetching c) [Text "sorry, I could not fetch that url"])
     /\ handleUpdateUrl P url c
        = (Ok tt, {| session := {| state := await_url; item := createNewItem |};
                     callbackQuery := callbackQuery c;
                     replies := replies c ++ [Text "fetching that url, hang on a sec...";
                                              Text "sorry, I could not fetch that url";
                                              Text "what url do you want post?"] |})).
Proof.
  intros Hurl Hmeta He. split.
  - intros summary Hsum.
    rewrite (handleUpdateUrl_fallback P url cleanUrl e summary c Hurl Hmeta He Hsum).
    pose proof (nextState_item (inSession (fetching c)
                  {| state := build; item := summaryItem cleanUrl summary |}))
      as [Hok [Hitem _]].
    pose proof (nextState_state (inSession (fetching c)
                  {| state := build; item := summaryItem cleanUrl summary |})) as Hstate.
    rewrite Hitem. cbn in Hstate. rewrite andb_negb_r in Hstate.
    repeat split; auto.
  - intros e' Hsum.
    rewrite (handleUpdateUrl_unresolved P url cleanUrl e e' c Hurl Hmeta He Hsum).
    split; [| split].
    + unfold fetchUrlSummary in Hsum.
      destruct (completion_service P cleanUrl); [discriminate | congruence].
    + unfold handleNew, resetState, setState, setItem, getSession, setSession, reply,
        bind, replied, fetching, inSession. cbn. rewrite <- !app_assoc. reflexivity.
    + unfold replied, fetching, inSession. cbn. rewrite <- !app_assoc. reflexivity.
Qed.

Lemma summary_fallback_witness :
  state (session (snd (handleUpdateUrl
                         (fixedPlatform (Some (404%Z, None)) None (Some "A summary.") None)
                         "example.com/a" (messageCtx createDefaultSession))))
  = build
  /\ description (item (session (snd (handleUpdateUrl
                         (fixedPlatform (Some (404%Z, None)) None (Some "A summary.") None)
                         "example.com/a" (messageCtx createDefaultSession)))))
     = "A summary.".
Proof.
  destruct (summary_fallback
              (fixedPlatform (Some (404%Z, None)) None (Some "A summary.") None)
              "example.com/a" "https://example.com/a" FETCH_METADATA_ERROR
              (messageCtx createDefaultSession)) as [Hsummary _].
  - reflexivity.
  - reflexivity.
  - discriminate.
  - destruct (Hsummary "A summary." eq_refl) as [_ [Hstate [_ [_ [_ Hdescription]]]]].
    split; [exact Hstate | apply Hdescription; cbn; lia].
Defined.

(** C3 as stated fails: after a successful fallback the title of the draft is
    set, to the normalized link. *)
Lemma fallback_sets_title :
  fetchUrlMetadata (fixedPlatform (Some (404%Z, None)) None (Some "A summary.") None)
    "https://example.com/a" = Throw FETCH_METADATA_ERROR
  /\ fetchUrlSummary (fixedPlatform (Some (404%Z, None)) None (Some "A summary.") None)
       "https://example.com/a" = Ok "A summary."
  /\ title (item (session (snd (handleUpdateUrl
              (fixedPlatform (Some (404%Z, None)) None (Some "A summary.") None)
              "example.com/a" (messageCtx createDefaultSession)))))
     = "https://example.com/a"
  /\ title (item (session (snd (handleUpdateUrl
              (fixedPlatform (Some (404%Z, None)) None (Some "A summary.") None)
              "example.com/a" (messageCtx createDefaultSession)))))
     <> EmptyString.
Proof.
  repeat split; try reflexivity. vm_compute. discriminate.
Qed.

(** ** Substrings *)

Lemma prefix_app (p s : string) :
  String.prefix p s = true <-> exists b, s = p ++ b.
Proof.
  revert s. induction p as [|a p IH]; intros s.
  - split; [intros _; exists s; reflexivity | intros _; destruct s; reflexivity].
  - destruct s as [|x s]; cbn.
    + split; [discriminate | intros [b Hb]; discriminate].
    + destruct (ascii_dec a x) as [->|Hneq].
      * rewrite IH. split; intros [b Hb]; exists b; [rewrite Hb; reflexivity | congruence].
      * split; [discriminate | intros [b Hb]; congruence].
Qed.

(** [s.includes(p)] holds exactly when [p] occurs somewhere in [s]. *)
Lemma includes_app (s p : string) :
  JS.includes s p = true <-> exists a b, s = a ++ p ++ b.
Proof.
  induction s as [|x s IH]; cbn [JS.includes].
  - destruct (String.prefix p EmptyString) eqn:Hp.
    + split; [intros _ | reflexivity].
      apply prefix_app in Hp. destruct Hp as [b Hb].
      exists EmptyString, b. exact Hb.
    + split; [discriminate |]. intros [a [b Hab]].
      destruct a; [| discriminate]. cbn in Hab.
      assert (Hp' : String.prefix p EmptyString = true) by (apply prefix_app; eauto).
      congruence.
  - destruct (String.prefix p (String x s)) eqn:Hp.
    + split; [intros _ | reflexivity].
      apply prefix_app in Hp. destruct Hp as [b Hb].
      exists EmptyString, b. exact Hb.
    + rewrite IH. split.
      * intros [a [b Hab]]. exists (String x a), b. cbn. rewrite Hab. reflexivity.
      * intros [a [b Hab]]. destruct a as [|y a].
        -- cbn in Hab.
           assert (Hp' : String.prefix p (String x s) = true) by (apply prefix_app; eauto).
           congruence.
        -- cbn in Hab. injection Hab as _ Hs. eauto.
Qed.

(** The first element of a list that passes a test, with those before it,
    which all fail it. *)
Lemma find_split {A : Type} (f : A -> bool) (l : list A) (x : A) :
  find f l = Some x ->
  exists l1 l2, l = (l1 ++ x :: l2)%list /\ f x = true /\ forall y, In y l1 -> f y = false.
Proof.
  induction l as [|a l IH]; cbn; [discriminate |].
  destruct (f a) eqn:Ha.
  - intros [= <-]. exists [], l. split; [reflexivity | split; [exact Ha |]].
    intros y [].
  - intros Hfind. destruct (IH Hfind) as [l1 [l2 [-> [Hx Hbefore]]]].
    exists (a :: l1), l2. split; [reflexivity | split; [exact Hx |]].
    intros y [<- | Hy]; [exact Ha | exact (Hbefore y Hy)].
Qed.

Lemma find_first {A : Type} (f : A -> bool) (l1 l2 : list A) (x : A) :
  f x = true -> (forall y, In y l1 -> f y = false) ->
  find f (l1 ++ x :: l2)%list = Some x.
Proof.
  intros Hx. induction l1 as [|a l1 IH]; intros Hbefore; cbn.
  - rewrite Hx. reflexivity.
  - rewrite (Hbefore a (or_introl eq_refl)). apply IH.
    intros y Hy. apply Hbefore. right. exact Hy.
Qed.

(** In a table whose values are all different, a value has one place. *)
Lemma split_unique {K V : Type} (l1 l2 m1 m2 : list (K * V)) (k1 k2 : K) (v : V) :
  NoDup (map snd (l1 ++ (k1, v) :: l2)%list) ->
  (l1 ++ (k1, v) :: l2 = m1 ++ (k2, v) :: m2)%list ->
  l1 = m1.
Proof.
  revert m1. induction l1 as [|a l1 IH]; intros m1 Hnodup Heq.
  - destruct m1 as [|b m1]; [reflexivity |]. exfalso.
    cbn in Heq. injection Heq as <- ->. cbn in Hnodup.
    apply NoDup_cons_iff in Hnodup. apply (proj1 Hnodup).
    rewrite map_app. apply in_or_app. right. left. reflexivity.
  - destruct m1 as [|b m1].
    + exfalso. cbn in Heq. injection Heq as -> _. cbn in Hnodup.
      apply NoDup_cons_iff in Hnodup. apply (proj1 Hnodup).
      rewrite map_app. apply in_or_app. right. left. reflexivity.
    + cbn in Heq. injection Heq as -> Heq. f_equal.
      apply IH; [| exact Heq].
      cbn in Hnodup. apply NoDup_cons_iff in Hnodup. exact (proj2 Hnodup).
Qed.

Lemma defaultTagsForDomain_distinct : NoDup (map snd defaultTagsForDomain).
Proof.
  unfold defaultTagsForDomain. cbn.
  repeat (apply NoDup_cons; [cbn; intuition discriminate |]). apply NoDup_nil.
Qed.

Lemma includes_occursIn (s p : string) : JS.includes s p = true <-> occursIn p s.
Proof. apply includes_app. Qed.

Lemma includes_not_occursIn (s p : string) : JS.includes s p = false <-> ~ occursIn p s.
Proof.
  rewrite <- includes_occursIn. destruct (JS.includes s p); split; congruence.
Qed.

(** C10 as stated fails when two keys occur: the tag is that of the key that
    comes first in the table, not of every key of the url.  In a link whose
    path names [youtube.com] and then [spotify.com], [youtube.com] occurs
    and its tag [media] is not the one the draft gets: [spotify.com] is
    before it in the table, and the draft is seeded with [podcast]. *)
Lemma defaultTagsForUrl_earlier_key_wins :
  In ("youtube.com", [media]) defaultTagsForDomain
  /\ "https://example.com/youtube.com/spotify.com"
     = "https://example.com/" ++ "youtube.com" ++ "/spotify.com"
  /\ defaultTagsForUrl "https://example.com/youtube.com/spotify.com" = [podcast]
  /\ defaultTagsForUrl "https://example.com/youtube.com/spotify.com" <> [media]
  /\ normalizeUrl offline "https://example.com/youtube.com/spotify.com"
     = Ok "https://example.com/youtube.com/spotify.com"
  /\ tags (item (session (snd (handleUpdateUrl
             (fixedPlatform (Some (200%Z, Some someMetadata)) (Some []) None None)
             "https://example.com/youtube.com/spotify.com"
             (messageCtx createDefaultSession)))))
     = [podcast].
Proof.
  split; [cbn; tauto |].
  split; [reflexivity |].
  split; [reflexivity |].
  split; [discriminate |].
  split; reflexivity.
Qed.

(** C10: the lookup is by containment in the whole string, and the first key
    of the table wins.  For a url in which a key of the table occurs
    anywhere, the lookup gives the (non-empty) tags of the first key of the
    table, in its order, that occurs in the url.  The tags of a given key
    that occurs are the result exactly when no key before it in the table
    occurs as well.  The result is what the draft is seeded with when the
    metadata of that link is accepted; the host of the link plays no
    part. *)
Theorem defaultTagsForUrl_substring (url before domain after : string)
    (domainTags : list ReadsTag) :
  In (domain, domainTags) defaultTagsForDomain ->
  url = before ++ domain ++ after ->
  (exists earlier found foundTags later,
      defaultTagsForDomain = (earlier ++ (found, foundTags) :: later)%list
      /\ occursIn found url
      /\ (forall key keyTags, In (key, keyTags) earlier -> ~ occursIn key url)
      /\ JS.includes url found = true
      /\ foundTags <> []
      /\ defaultTagsForUrl url = foundTags)
  /\ (forall earlier later,
        defaultTagsForDomain = (earlier ++ (domain, domainTags) :: later)%list ->
        (defaultTagsForUrl url = domainTags
         <-> forall key keyTags, In (key, keyTags) earlier -> ~ occursIn key url))
  /\ (forall P raw metadata c,
        normalizeUrl P raw = Ok url ->
        metadataStage P url = Ok metadata ->
        tags (item (session (snd (handleUpdateUrl P raw c)))) = defaultTagsForUrl url).
Proof.
  intros Hin Hurl.
  assert (Hoccurs : occursIn domain url) by (exists before, after; exact Hurl).
  assert (Hfirst : exists earlier found foundTags later,
             defaultTagsForDomain = (earlier ++ (found, foundTags) :: later)%list
             /\ occursIn found url
             /\ (forall key keyTags, In (key, keyTags) earlier -> ~ occursIn key url)
             /\ defaultTagsForUrl url = foundTags).
  { unfold defaultTagsForUrl.
    destruct (find (fun kv => JS.includes url (fst kv)) defaultTagsForDomain)
      as [[found foundTags]|] eqn:Hfind.
    - destruct (find_split _ _ _ Hfind) as [earlier [later [Htable [Hfound Hbefore]]]].
      exists earlier, found, foundTags, later.
      split; [exact Htable |].
      split; [apply includes_occursIn; exact Hfound |].
      split; [| reflexivity].
      intros key keyTags Hkey. apply includes_not_occursIn.
      exact (Hbefore (key, keyTags) Hkey).
    - exfalso. apply includes_occursIn in Hoccurs.
      pose proof (find_none _ _ Hfind (domain, domainTags) Hin) as Hmiss.
      cbn [fst] in Hmiss. congruence. }
  destruct Hfirst as [e1 [found [foundTags [l1 [Htable [Hfound [Hbefore Htags]]]]]]].
  split; [| split].
  - exists e1, found, foundTags, l1.
    split; [exact Htable |].
    split; [exact Hfound |].
    split; [exact Hbefore |].
    split; [apply includes_occursIn; exact Hfound |].
    split; [| exact Htags].
    assert (Hf : In (found, foundTags) defaultTagsForDomain)
      by (rewrite Htable; apply in_or_app; right; left; reflexivity).
    unfold defaultTagsForDomain in Hf. cbn in Hf.
    intuition (try congruence);
      match goal with H : (_, _) = (_, _) |- _ => injection H as <- <-; discriminate end.
  - intros earlier later Hsplit. split.
    + intros Hresult.
      assert (Hsame : foundTags = domainTags) by congruence.
      clear Htags Hresult. subst foundTags.
      assert (He : e1 = earlier).
      { apply (split_unique e1 l1 earlier later found domain domainTags).
        - rewrite <- Htable. exact defaultTagsForDomain_distinct.
        - rewrite <- Htable. exact Hsplit. }
      subst e1. exact Hbefore.
    + intros Hnone. unfold defaultTagsForUrl. rewrite Hsplit.
      rewrite (find_first _ earlier later (domain, domainTags)).
      * reflexivity.
      * apply includes_occursIn. exact Hoccurs.
      * intros [key keyTags] Hkey. apply includes_not_occursIn.
        exact (Hnone key keyTags Hkey).
  - intros P raw metadata c Hraw Hmeta.
    rewrite (handleUpdateUrl_metadata P raw url metadata c Hraw Hmeta).
    destruct (nextState_item (inSession (fetching c)
                {| state := build; item := metadataItem url metadata |})) as [_ [Hitem _]].
    rewrite Hitem. reflexivity.
Qed.

(** The table matches a path as well as a host: a link to [example.com] is
    tagged [news] because its path names [bloomberg.com], the first key of
    the table. *)
Lemma defaultTagsForUrl_substring_witness :
  URL.parse "https://example.com/bloomberg.com"
  = Some {| URL.origin := "https://example.com"; URL.pathname := "/bloomberg.com" |}
  /\ tags (item (session (snd (handleUpdateUrl
             (fixedPlatform (Some (200%Z, Some someMetadata)) (Some []) None None)
             "https://example.com/bloomberg.com" (messageCtx createDefaultSession)))))
     = defaultTagsForUrl "https://example.com/bloomberg.com"
  /\ defaultTagsForUrl "https://example.com/bloomberg.com" = [news].
Proof.
  pose proof (defaultTagsForUrl_substring "https://example.com/bloomberg.com"
                "https://example.com/" "bloomberg.com" EmptyString [news]
                ltac:(left; reflexivity) eq_refl) as [_ [Hkey Hseed]].
  split; [reflexivity | split].
  - apply Hseed with (metadata := someMetadata); reflexivity.
  - apply (Hkey [] [("medium.com", [reads]); ("spotify.com", [podcast]);
                    ("x.com", [tweets]); ("youtube.com", [media])] eq_refl).
    intros key keyTags [].
Defined.

(** ** Descriptions and tags on the two resolution paths *)

Lemma length_append (a b : string) :
  String.length (a ++ b) = (String.length a + String.length b)%nat.
Proof.
  induction a as [|x a IH]; cbn; [reflexivity | rewrite IH; reflexivity].
Qed.

Lemma length_substring0 (n : nat) (s : string) :
  (n <= String.length s)%nat -> String.length (JS.substring0 n s) = n.
Proof.
  unfold JS.substring0. revert s. induction n as [|n IH]; intros s Hn.
  - destruct s; reflexivity.
  - destruct s as [|x s]; cbn in *; [lia |]. rewrite IH; [reflexivity | lia].
Qed.

Lemma substring0_prefix (n : nat) (s : string) :
  exists rest, s = JS.substring0 n s ++ rest.
Proof.
  unfold JS.substring0. revert s. induction n as [|n IH]; intros s.
  - exists s. destruct s; reflexivity.
  - destruct s as [|x s]; cbn.
    + exists EmptyString. reflexivity.
    + destruct (IH s) as [rest Hrest]. exists rest. rewrite <- Hrest. reflexivity.
Qed.

(** On the metadata path the description is cut to 497 characters and three
    dots when it is longer than 500, and kept otherwise. *)
Lemma metadataDescription_truncates (d : string) :
  ((500 < String.length d)%nat ->
     metadataDescription (Some d) = JS.substring0 497 d ++ "..."
     /\ String.length (metadataDescription (Some d)) = 500%nat)
  /\ ((String.length d <= 500)%nat -> metadataDescription (Some d) = d).
Proof.
  unfold metadataDescription. split; intros Hlen.
  - assert (Hltb : (500 <? String.length d)%nat = true) by (apply Nat.ltb_lt; exact Hlen).
    rewrite Hltb. destruct d as [|x d]; [cbn in Hlen; lia |].
    cbn [JS.falsy negb andb]. split; [reflexivity |].
    rewrite length_append, length_substring0; [reflexivity | lia].
  - assert (Hltb : (500 <? String.length d)%nat = false) by (apply Nat.ltb_ge; exact Hlen).
    rewrite Hltb, andb_false_r. reflexivity.
Qed.

Lemma metadata_path_item (P : Platform) (url cleanUrl : string)
    (metadata : UrlMetadata) (c : Ctx) :
  normalizeUrl P url = Ok cleanUrl ->
  metadataStage P cleanUrl = Ok metadata ->
  item (session (snd (handleUpdateUrl P url c))) = metadataItem cleanUrl metadata.
Proof.
  intros Hurl Hmeta.
  rewrite (handleUpdateUrl_metadata P url cleanUrl metadata c Hurl Hmeta).
  apply nextState_item.
Qed.

Lemma fallback_path_item (P : Platform) (url cleanUrl e summary : string) (c : Ctx) :
  normalizeUrl P url = Ok cleanUrl ->
  metadataStage P cleanUrl = Throw e ->
  e <> ERROR_DUPLICATE_READ ->
  fetchUrlSummary P cleanUrl = Ok summary ->
  item (session (snd (handleUpdateUrl P url c))) = summaryItem cleanUrl summary.
Proof.
  intros Hurl Hmeta He Hsum.
  rewrite (handleUpdateUrl_fallback P url cleanUrl e summary c Hurl Hmeta He Hsum).
  apply nextState_item.
Qed.

(** C4 fails on the fallback path: a summary of 501 characters, obtained
    after the metadata service answered 404, is stored whole. *)
Theorem fallback_description_untruncated :
  String.length (repeatChar "a" 501) = 501%nat
  /\ description (item (session (snd (handleUpdateUrl
       (fixedPlatform (Some (404%Z, None)) None (Some (repeatChar "a" 501)) None)
       "example.com/a" (messageCtx createDefaultSession)))))
     = repeatChar "a" 501.
Proof.
  split; [reflexivity |].
  rewrite (fallback_path_item
             (fixedPlatform (Some (404%Z, None)) None (Some (repeatChar "a" 501)) None)
             "example.com/a" "https://example.com/a" FETCH_METADATA_ERROR
             (repeatChar "a" 501));
    [reflexivity | reflexivity | reflexivity | discriminate | reflexivity].
Qed.

(** C5 fails on the fallback path: a [bloomberg.com] link whose summary was
    obtained after the metadata service answered 404 is left without a tag,
    although the table gives [news] for it. *)
Theorem fallback_tags_not_seeded :
  defaultTagsForUrl "https://bloomberg.com/a" = [news]
  /\ tags (item (session (snd (handleUpdateUrl
       (fixedPlatform (Some (404%Z, None)) None (Some "A summary.") None)
       "bloomberg.com/a" (messageCtx createDefaultSession)))))
     = [].
Proof.
  split; reflexivity.
Qed.

(** On the metadata path the same link is seeded with [news]. *)
Example metadata_tags_seeded :
  tags (item (session (snd (handleUpdateUrl
       (fixedPlatform (Some (200%Z, Some someMetadata)) (Some []) None None)
       "bloomberg.com/a" (messageCtx createDefaultSession)))))
  = [news].
Proof. reflexivity. Qed.

(** ** Publishing *)

Ltac run_publish :=
  unfold handlePost, postRead, resetState, setItem, setState, getItem,
    getSession, setSession, reply, bind, ret, throw, try_catch, replied, inSession;
  cbn [session callbackQuery replies state item fst snd].

(** C1: with a link set and a callback query at hand, [postRead] turns the
    status of the storage API into [ERROR_UNAUTHORIZED] for 403,
    [ERROR_DUPLICATE_READ] for 409, [ERROR_UNKNOWN] for any other status above
    201, and returns for a status up to 201.  [handlePost] resets the session
    (state [none], empty draft) on success and on the duplicate error, and
    only notifies the user, session untouched, on the two other errors. *)
Theorem publish_outcomes (P : Platform) (c : Ctx) (q : CallbackQuery) (status : Z) :
  link (item (session c)) <> EmptyString ->
  callbackQuery c = Some q ->
  storage_service P (item (session c)) (from_username q) = Some status ->
  (status = 403%Z ->
     postRead P c = (Throw ERROR_UNAUTHORIZED, replied c [attempting])
     /\ handlePost P c
        = (Ok tt, replied c
             [attempting; Text "Unauthorized: reach out to engineering for assistance."]))
  /\ (status = 409%Z ->
     postRead P c = (Throw ERROR_DUPLICATE_READ, replied c [attempting])
     /\ handlePost P c
        = (Ok tt, replied (inSession c {| state := none; item := createNewItem |})
             [attempting; Text "Oops, this item was already added recently."]))
  /\ (status <> 403%Z -> status <> 409%Z -> (201 < status)%Z ->
     postRead P c = (Throw ERROR_UNKNOWN, replied c [attempting])
     /\ handlePost P c
        = (Ok tt, replied c
             [attempting;
              Text "Oops, something went wrong - try to /publish again or start over with /new"]))
  /\ ((status <= 201)%Z ->
     postRead P c = (Ok tt, replied c [attempting])
     /\ handlePost P c
        = (Ok tt, replied (inSession c {| state := none; item := createNewItem |})
             [attempting;
              Text "Item has been published. Paste another URL to start over."])).
Proof.
  intros Hlink Hq Hstatus.
  assert (Hguard : forall callback, ensureLinkSet callback c = callback c)
    by (intros callback; apply ensureLinkSet_set; exact Hlink).
  unfold handlePost. rewrite Hguard. clear Hguard.
  destruct c as [s cq rs]. cbn in Hlink, Hq, Hstatus. subst cq.
  repeat split; intros; run_publish; rewrite Hstatus.
  1-2: subst status; cbn; rewrite <- ?app_assoc; reflexivity.
  1-2: subst status; cbn; rewrite <- ?app_assoc; reflexivity.
  1-2: assert (H403 : (status =? 403)%Z = false) by (apply Z.eqb_neq; assumption);
       assert (H409 : (status =? 409)%Z = false) by (apply Z.eqb_neq; assumption);
       assert (H201 : (201 <? status)%Z = true) by (apply Z.ltb_lt; assumption);
       rewrite H403, H409, H201; cbn; rewrite <- ?app_assoc; reflexivity.
  1-2: assert (H403 : (status =? 403)%Z = false) by (apply Z.eqb_neq; lia);
       assert (H409 : (status =? 409)%Z = false) by (apply Z.eqb_neq; lia);
       assert (H201 : (201 <? status)%Z = false) by (apply Z.ltb_ge; lia);
       rewrite H403, H409, H201; cbn; rewrite <- ?app_assoc; reflexivity.
Qed.

Lemma publish_outcomes_witness :
  handlePost (fixedPlatform None None None (Some 500%Z))
    (actionCtx {| state := build; item := draftItem |} {| from_username := Some "analyst" |})
  = (Ok tt, {| session := {| state := build; item := draftItem |};
               callbackQuery := Some {| from_username := Some "analyst" |};
               replies :=
                 [attempting;
                  Text "Oops, something went wrong - try to /publish again or start over with /new"] |}).
Proof.
  apply (publish_outcomes (fixedPlatform None None None (Some 500%Z))
           (actionCtx {| state := build; item := draftItem |} {| from_username := Some "analyst" |})
           {| from_username := Some "analyst" |} 500%Z).
  - discriminate.
  - reflexivity.
  - reflexivity.
  - discriminate.
  - discriminate.
  - reflexivity.
Defined.

(** A rejected request is an unknown failure as well. *)
Lemma publish_network_failure (P : Platform) (c : Ctx) (q : CallbackQuery) :
  link (item (session c)) <> EmptyString ->
  callbackQuery c = Some q ->
  storage_service P (item (session c)) (from_username q) = None ->
  handlePost P c
  = (Ok tt, replied c
       [attempting;
        Text "Oops, something went wrong - try to /publish again or start over with /new"]).
Proof.
  intros Hlink Hq Hstatus. unfold handlePost. rewrite ensureLinkSet_set by exact Hlink.
  destruct c as [s cq rs]. cbn in Hlink, Hq, Hstatus. subst cq.
  run_publish. rewrite Hstatus. cbn. rewrite <- app_assoc. reflexivity.
Qed.

(** [postRead] reads the user name from [ctx.callbackQuery]: on a message
    update (the [/publish] command) there is none, the read throws before
    the storage API is asked, and the handler reports an unknown failure. *)
Lemma publish_without_callback_query (P : Platform) (c : Ctx) :
  link (item (session c)) <> EmptyString ->
  callbackQuery c = None ->
  postRead P c = (Throw NO_CALLBACK_QUERY, c)
  /\ handlePost P c
     = (Ok tt, replied c
          [Text "Oops, something went wrong - try to /publish again or start over with /new"]).
Proof.
  intros Hlink Hq. unfold handlePost. rewrite ensureLinkSet_set by exact Hlink.
  destruct c as [s cq rs]. cbn in Hlink, Hq. subst cq.
  split; run_publish; reflexivity.
Qed.

(** ** Descriptions typed by the user *)

(** Entering [build]: the draft is kept, and the state at the end is
    [await_title] when the title is asked for, [build] otherwise. *)
Lemma nextBuildState_enters (c : Ctx) :
  nextBuildState c = nextState (inSession c {| state := build; item := item (session c) |})
  /\ fst (nextBuildState c) = Ok tt
  /\ item (session (snd (nextBuildState c))) = item (session c)
  /\ state (session (snd (nextBuildState c)))
     = if JS.falsy (title (item (session c))) && negb (JS.falsy (link (item (session c))))
       then await_title else build.
Proof.
  destruct c as [[st it] q rs].
  unfold nextBuildState, nextState, handleSetTitle, handleSetTaxonomy, handleSetTag,
    handleSetOption, replyWithPreview, displayMenu, displayOptionMenu, ensureLinkSet,
    setState, getItem, getSession, setSession, reply, bind, ret, inSession.
  cbn.
  destruct (JS.falsy (title it)); cbn.
  - destruct (JS.falsy (link it)); cbn; auto.
  - repeat (match goal with
            | |- context [if ?b then _ else _] => destruct b; cbn
            end); auto.
Qed.

(** C6: a text reaching the message handler in state [await_description].
    Longer than 500 characters, it is refused: the session is left as it
    is and, the link being set, the user is asked for a description again.
    Otherwise it becomes the description of the draft, [none] standing for
    the empty description, while the title, link, image, sector and type of
    the draft stay as they were, and the session enters [build], from which
    the next missing field is prompted for. *)
Theorem description_update (P : Platform) (c : Ctx) (text : string) :
  state (session c) = await_description ->
  ((500 < String.length text)%nat ->
     onText P text c
     = (Ok tt, replied c [Text "sorry, that description too long";
                          if JS.falsy (link (item (session c)))
                          then Text "send me a link first" else describePrompt]))
  /\ ((String.length text <= 500)%nat ->
     let stored := if String.eqb text "none" then EmptyString else text in
     let updated := {| title := title (item (session c));
                       link := link (item (session c));
                       description := stored;
                       image_url := image_url (item (session c));
                       taxonomy := taxonomy (item (session c));
                       tags := tags (item (session c)) |} in
     onText P text c
     = nextBuildState (inSession c {| state := await_description; item := updated |})
     /\ onText P text c
        = nextState (inSession c {| state := build; item := updated |})
     /\ fst (onText P text c) = Ok tt
     /\ item (session (snd (onText P text c))) = updated
     /\ description (item (session (snd (onText P text c)))) = stored
     /\ state (session (snd (onText P text c)))
        = if JS.falsy (title (item (session c))) && negb (JS.falsy (link (item (session c))))
          then await_title else build).
Proof.
  intros Hstate. destruct c as [[st it] q rs]. cbn in Hstate. subst st.
  unfold onText, bind, getSession. cbn [session state].
  unfold handleUpdateDescription. split; intros Hlen.
  - assert (Hltb : (500 <? String.length text)%nat = true) by (apply Nat.ltb_lt; exact Hlen).
    rewrite Hltb.
    unfold handleSetDescription, ensureLinkSet, setState, getItem, getSession, setSession,
      reply, bind, ret, replied, describePrompt.
    cbn. destruct (JS.falsy (link it)); cbn; rewrite <- app_assoc; reflexivity.
  - assert (Hltb : (500 <? String.length text)%nat = false) by (apply Nat.ltb_ge; exact Hlen).
    rewrite Hltb.
    set (stored := if String.eqb text "none" then EmptyString else text).
    cbn [session item].
    set (updated := {| title := title it; link := link it; description := stored;
                       image_url := image_url it; taxonomy := taxonomy it;
                       tags := tags it |}).
    assert (Hrun : (updItem (with_description stored) ;; nextBuildState)
                     {| session := {| state := await_description; item := it |};
                        callbackQuery := q; replies := rs |}
                   = nextBuildState
                       (inSession {| session := {| state := await_description; item := it |};
                                     callbackQuery := q; replies := rs |}
                          {| state := await_description; item := updated |})) by reflexivity.
    rewrite Hrun.
    destruct (nextBuildState_enters
                (inSession {| session := {| state := await_description; item := it |};
                              callbackQuery := q; replies := rs |}
                   {| state := await_description; item := updated |}))
      as [Hnext [Hok [Hitem Hst]]].
    split; [reflexivity |].
    split; [exact Hnext |].
    split; [exact Hok |].
    split; [exact Hitem |].
    split; [rewrite Hitem; reflexivity | exact Hst].
Qed.

Lemma description_update_witness :
  item (session (snd (onText offline "none"
                        (messageCtx {| state := await_description; item := draftItem |}))))
  = {| title := title draftItem; link := link draftItem; description := EmptyString;
       image_url := image_url draftItem; taxonomy := taxonomy draftItem;
       tags := tags draftItem |}.
Proof.
  refine (proj1 (proj2 (proj2 (proj2
            (proj2 (description_update offline
                      (messageCtx {| state := await_description; item := draftItem |})
                      "none" eq_refl) _))))).
  cbn. lia.
Defined.

(** A description of 501 characters is refused and the prompt repeated; the
    description of the draft stays as it was. *)
Example description_too_long :
  onText offline (repeatChar "a" 501)
    (messageCtx {| state := await_description; item := draftItem |})
  = (Ok tt, {| session := {| state := await_description; item := draftItem |};
               callbackQuery := None;
               replies := [Text "sorry, that description too long"; describePrompt] |}).
Proof. reflexivity. Qed.

(** ** Normalizing a link *)








(** ** Sessions the bot can reach *)

Lemma replace_nonempty (s pat rep : string) :
  s <> EmptyString -> rep <> EmptyString -> JS.replace s pat rep <> EmptyString.
Proof.
  intros Hs Hrep. destruct s as [|c t]; [congruence |].
  cbn [JS.replace]. destruct (String.prefix pat (String c t)).
  - destruct rep; [congruence | discriminate].
  - discriminate.
Qed.

Lemma rewriteUrl_nonempty (raw : string) : rewriteUrl raw <> EmptyString.
Proof.
  unfold rewriteUrl.
  repeat (apply replace_nonempty; [| discriminate]).
  destruct (JS.startsWith raw "http") eqn:Hraw; cbn [negb]; [| discriminate].
  destruct raw; [discriminate Hraw | discriminate].
Qed.

Lemma normalizeUrl_nonempty (P : Platform) (url cleanUrl : string) :
  originNonEmpty P -> normalizeUrl P url = Ok cleanUrl -> cleanUrl <> EmptyString.
Proof.
  intros Horigin. unfold normalizeUrl.
  destruct (JS.includes (rewriteUrl url) "x.com").
  - destruct (URL_new P (rewriteUrl url)) as [u|] eqn:Hu; [| discriminate].
    intros [= <-]. specialize (Horigin _ _ Hu).
    destruct (URL.origin u); [congruence | discriminate].
  - intros [= <-]. apply rewriteUrl_nonempty.
Qed.

Lemma parse_originNonEmpty (s : string) (u : URL.t) :
  URL.parse s = Some u -> URL.origin u <> EmptyString.
Proof.
  unfold URL.parse. destruct (String.prefix "https://" s); [| discriminate].
  destruct (URL.break URL.endsAuthority (JS.drop 8 s)) as [host rest].
  destruct (JS.falsy host || negb (URL.allChars URL.hostChar host)); [discriminate |].
  destruct (URL.break URL.endsPath rest) as [path _].
  intros [= <-]. discriminate.
Qed.

Lemma fixedPlatform_originNonEmpty (metadata : option (Z * option UrlMetadata))
    (page : option (list string)) (summary : option string) (status : option Z) :
  originNonEmpty (fixedPlatform metadata page summary status).
Proof.
  intros s u. cbn. apply parse_originNonEmpty.
Qed.

Ltac run_all :=
  unfold nextState, nextBuildState, handleSetTitle, handleSetDescription,
    handleSetTaxonomy, handleSetTag, handleSetOption, handleHelp, handleNew,
    replyWithPreview, displayMenu, displayOptionMenu, ensureLinkSet, resetState,
    hearsState, action_setsector, action_settype, handleUpdateTitle,
    handleUpdateDescription, updItem, setItem, setState, getItem, getSession,
    setSession, reply, bind, ret, messageCtx, linked in *;
  cbn in *.

Ltac split_ifs :=
  repeat (match goal with
          | |- context [JS.falsy ?s] => destruct s eqn:?; cbn in *
          | |- context [if ?b then _ else _] => destruct b eqn:?; cbn in *
          end);
  auto; try congruence.

Lemma nextState_linked (c : Ctx) :
  linked (session c) -> linked (session (snd (nextState c))).
Proof.
  destruct c as [[st it] q rs]. run_all.
  destruct st; cbn; auto; intros Hlink; split_ifs; auto.
Qed.

Lemma handlePost_linked (P : Platform) (c : Ctx) :
  linked (session c) -> linked (session (snd (handlePost P c))).
Proof.
  intros Hinv. unfold handlePost, ensureLinkSet, bind, getItem, getSession, ret. cbn.
  destruct (JS.falsy (link (item (session c)))); [exact Hinv |].
  destruct c as [s [q|] rs]; run_publish; cbn; [| exact Hinv].
  destruct (storage_service P (item s) (from_username q)) as [status|]; cbn; [| exact Hinv].
  destruct (status =? 403)%Z; cbn; [exact Hinv |].
  destruct (status =? 409)%Z; cbn; [exact I |].
  destruct (201 <? status)%Z; cbn; [exact Hinv | exact I].
Qed.

Lemma handleUpdateUrl_linked (P : Platform) (url : string) (c : Ctx) :
  originNonEmpty P -> linked (session (snd (handleUpdateUrl P url c))).
Proof.
  intros Horigin.
  destruct (normalizeUrl P url) as [cleanUrl|e] eqn:Hurl.
  - pose proof (normalizeUrl_nonempty P url cleanUrl Horigin Hurl) as Hclean.
    destruct (metadataStage P cleanUrl) as [metadata|e] eqn:Hmeta.
    + rewrite (handleUpdateUrl_metadata P url cleanUrl metadata c Hurl Hmeta).
      apply nextState_linked. exact Hclean.
    + destruct (String.eqb_spec e ERROR_DUPLICATE_READ) as [-> | He].
      * rewrite (handleUpdateUrl_duplicate P url cleanUrl c Hurl Hmeta). exact I.
      * destruct (fetchUrlSummary P cleanUrl) as [summary|e'] eqn:Hsum.
        -- rewrite (handleUpdateUrl_fallback P url cleanUrl e summary c Hurl Hmeta He Hsum).
           apply nextState_linked. exact Hclean.
        -- rewrite (handleUpdateUrl_unresolved P url cleanUrl e e' c Hurl Hmeta He Hsum).
           exact I.
  - rewrite (handleUpdateUrl_invalid P url e c Hurl). exact I.
Qed.

Lemma onText_linked (P : Platform) (text : string) (c : Ctx) :
  originNonEmpty P -> linked (session c) -> linked (session (snd (onText P text c))).
Proof.
  intros Horigin Hinv. unfold onText, bind, getSession.
  destruct (state (session c)) eqn:Hst.
  - destruct c as [[st it] q rs]. cbn in Hst. subst st. run_all.
    split_ifs; auto.
  - destruct c as [[st it] q rs]. cbn in Hst. subst st. run_all.
    split_ifs; auto.
  - apply handleUpdateUrl_linked. exact Horigin.
  - exact Hinv.
  - exact Hinv.
Qed.

(** Every update keeps the invariant: in the states [await_description],
    [await_title] and [build] the draft has a link. *)
Lemma handleUpdate_linked (P : Platform) (u : Update) (s : ReadsSession) :
  originNonEmpty P -> linked s -> linked (session (snd (handleUpdate P u s))).
Proof.
  intros Horigin Hinv.
  assert (Hcommand : forall name,
             linked (session (snd (bot_command P name (messageCtx s))))).
  { intros name. destruct name; cbn [bot_command];
      try (apply handlePost_linked; exact Hinv);
      destruct s as [st it]; run_all; destruct st; cbn in *; split_ifs; auto. }
  destruct u as [name | name query | choice query | choice query | text command];
    cbn [handleUpdate];
    [| | | | destruct (commandNamed command) as [name |]; [apply Hcommand |]].
  - apply Hcommand.
  - destruct name; cbn [bot_action]; try exact Hinv;
      try (apply handlePost_linked; exact Hinv);
      destruct s as [st it]; run_all; destruct st; cbn in *; split_ifs; auto.
  - destruct s as [st it]; run_all; destruct st; cbn in *; split_ifs; auto.
  - destruct s as [st it]; run_all; destruct st; cbn in *; split_ifs; auto.
  - destruct (String.eqb text "state").
    + exact Hinv.
    + destruct (hearsUrl text).
      * apply handleUpdateUrl_linked. exact Horigin.
      * apply onText_linked; [exact Horigin | exact Hinv].
Qed.

Lemma sessionAfter_linked (P : Platform) (us : list Update) (s : ReadsSession) :
  originNonEmpty P -> linked s -> linked (sessionAfter P us s).
Proof.
  intros Horigin. revert s. induction us as [|u rest IH]; intros s Hinv; cbn.
  - exact Hinv.
  - apply IH. apply handleUpdate_linked; assumption.
Qed.

(** On a session the bot can reach, a description that is too long is
    answered by the refusal and the prompt for a description, and the session
    stays as it is. *)
Lemma description_refused_reachable (P : Platform) (us : list Update) (text : string) :
  originNonEmpty P ->
  state (sessionAfter P us createDefaultSession) = await_description ->
  (500 < String.length text)%nat ->
  hearsUrl text = false ->
  handleUpdate P (TextUpdate text None) (sessionAfter P us createDefaultSession)
  = (Ok tt, {| session := sessionAfter P us createDefaultSession;
               callbackQuery := None;
               replies := [Text "sorry, that description too long"; describePrompt] |}).
Proof.
  intros Horigin Hst Hlen Hurl.
  pose proof (sessionAfter_linked P us createDefaultSession Horigin I) as Hinv.
  destruct (sessionAfter P us createDefaultSession) as [st it]. cbn in Hst. subst st.
  unfold linked in Hinv. cbn in Hinv.
  cbn [handleUpdate commandNamed]. rewrite Hurl.
  destruct (String.eqb_spec text "state") as [-> | _]; [cbn in Hlen; lia |].
  unfold onText, handleUpdateDescription, bind, getSession, messageCtx. cbn [session state].
  assert (Hltb : (500 <? String.length text)%nat = true) by (apply Nat.ltb_lt; exact Hlen).
  rewrite Hltb.
  unfold handleSetDescription, ensureLinkSet, setState, getItem, getSession, setSession,
    reply, bind, ret, describePrompt.
  cbn. destruct (link it); [congruence | reflexivity].
Qed.

(** ** End-to-end scenarios *)

(** A text message that carries a registered command goes to that command,
    whatever its text and whatever the state. *)
Lemma handleUpdate_command_text (P : Platform) (text : string) (name : Command)
    (s : ReadsSession) :
  commandNamed (Some (commandName name)) = Some name
  /\ handleUpdate P (TextUpdate text (Some (commandName name))) s
     = handleUpdate P (CommandUpdate name) s.
Proof. destruct name; split; reflexivity. Qed.

(** [/new] while the title is asked for starts afresh: the text is not taken
    for the title.  [/start], which is no command of the bot, is. *)
Example scenario_command_while_titling :
  handleUpdate offline (TextUpdate "/new" (Some "new"))
    {| state := await_title; item := draftItem |}
  = (Ok tt, {| session := {| state := await_url; item := createNewItem |};
               callbackQuery := None;
               replies := [Text "what url do you want post?"] |})
  /\ title (item (session (snd (handleUpdate offline (TextUpdate "/start" (Some "start"))
                                  {| state := await_title; item := draftItem |}))))
     = "/start".
Proof. split; reflexivity. Qed.

(** [/new], then the text [bloomberg.com/a]: the link is normalized, the
    metadata resolves, the tag is seeded with [news] and, the metadata having
    no title, the title is asked for. *)
Example scenario_new_link :
  session (snd (handleUpdate offline (CommandUpdate new) createDefaultSession))
  = {| state := await_url; item := createNewItem |}
  /\ handleUpdate (fixedPlatform (Some (200%Z, Some untitledMetadata)) (Some []) None None)
       (TextUpdate "bloomberg.com/a" None) {| state := await_url; item := createNewItem |}
     = (Ok tt,
        {| session :=
             {| state := await_title;
                item := {| title := EmptyString; link := "https://bloomberg.com/a";
                           description := "Stocks rose."; image_url := EmptyString;
                           taxonomy := []; tags := [news] |} |};
           callbackQuery := None;
           replies := [Text "fetching that url, hang on a sec...";
                       Text "what title do you want?"] |}).
Proof. split; reflexivity. Qed.

(** A complete draft, the button [publish], and a storage API that answers
    409: the user is told the item exists and the session is reset. *)
Example scenario_publish_conflict :
  handleUpdate (fixedPlatform None None None (Some 409%Z))
    (ActionUpdate publish {| from_username := Some "analyst" |})
    {| state := build; item := draftItem |}
  = (Ok tt,
     {| session := createDefaultSession;
        callbackQuery := Some {| from_username := Some "analyst" |};
        replies := [attempting; Text "Oops, this item was already added recently."] |}).
Proof. reflexivity. Qed.

(** [/publish] on a fresh session: a link is asked for, nothing changes. *)
Example scenario_publish_without_link :
  handleUpdate offline (CommandUpdate publish) createDefaultSession
  = (Ok tt,
     {| session := createDefaultSession; callbackQuery := None;
        replies := [Text "send me a link first"] |}).
Proof. reflexivity. Qed.

(** ** Text cleaned for Markdown *)

Ltac string_step :=
  cbn [wellEscaped singleSpaced noChar append JS.replaceAll JS.collapseSpaces].

Ltac string_step_in H :=
  cbn [wellEscaped singleSpaced noChar append JS.replaceAll JS.collapseSpaces] in H.

Lemma backslash_plain :
  markdownSpecial "\" = false /\ Ascii.eqb "\" "\" = true.
Proof. split; reflexivity. Qed.

Lemma wellEscaped_mono (s : string) (b : bool) :
  wellEscaped false s = true -> wellEscaped b s = true.
Proof.
  destruct s as [|c t]; [reflexivity |]. string_step.
  destruct (markdownSpecial c); [discriminate | auto].
Qed.

Lemma escape_wellEscaped (s : string) (b : bool) :
  wellEscaped b
    (JS.replaceAll markdownSpecial (fun c => String "\" (String c EmptyString)) s) = true.
Proof.
  revert b. induction s as [|c t IH]; intros b; [reflexivity |].
  string_step. destruct (markdownSpecial c) eqn:Hc; string_step.
  - rewrite (proj1 backslash_plain), (proj2 backslash_plain), Hc. apply IH.
  - rewrite Hc. apply IH.
Qed.

Lemma isSpace_plain (c : ascii) :
  JS.isSpace c = true -> markdownSpecial c = false /\ Ascii.eqb c "\" = false.
Proof.
  unfold JS.isSpace. cbn [existsb]. intros H.
  repeat (apply orb_true_iff in H; destruct H as [H | H]);
    try discriminate;
    apply Nat.eqb_eq in H;
    apply (f_equal ascii_of_nat) in H; rewrite ascii_nat_embedding in H; subst c;
    split; reflexivity.
Qed.

Lemma newline_wellEscaped (s : string) (b : bool) :
  wellEscaped b (JS.replaceAll (Ascii.eqb (ascii_of_nat 10)) (fun _ => " ") s)
  = wellEscaped b s.
Proof.
  revert b. induction s as [|c t IH]; intros b; [reflexivity |].
  string_step. destruct (Ascii.eqb_spec (ascii_of_nat 10) c) as [<- | Hc]; string_step.
  - change (markdownSpecial " ") with false.
    change (markdownSpecial (ascii_of_nat 10)) with false.
    change (Ascii.eqb " " "\") with false.
    change (Ascii.eqb (ascii_of_nat 10) "\") with false.
    rewrite IH. reflexivity.
  - rewrite IH. reflexivity.
Qed.

Lemma collapse_wellEscaped (s : string) (b r : bool) :
  wellEscaped b s = true -> wellEscaped b (JS.collapseSpaces r s) = true.
Proof.
  revert b r. induction s as [|c t IH]; intros b r H; [reflexivity |].
  string_step. string_step_in H. destruct (JS.isSpace c) eqn:Hsp.
  - destruct (isSpace_plain c Hsp) as [Hspecial Hslash].
    rewrite Hspecial, Hslash in H. cbn [andb] in H.
    destruct r.
    + apply wellEscaped_mono. apply IH. exact H.
    + string_step. change (markdownSpecial " ") with false.
      change (Ascii.eqb " " "\") with false. cbn [andb]. apply IH. exact H.
  - string_step. apply andb_true_iff in H. destruct H as [H1 H2].
    rewrite H1. cbn [andb]. apply IH. exact H2.
Qed.

Lemma at_wellEscaped (s : string) (b : bool) :
  wellEscaped b (JS.replaceAll (Ascii.eqb "@") (fun _ => fullwidthAt) s)
  = wellEscaped b s.
Proof.
  revert b. induction s as [|c t IH]; intros b; [reflexivity |].
  string_step. destruct (Ascii.eqb_spec "@"%char c) as [<- | Hc].
  - unfold fullwidthAt. string_step.
    change (markdownSpecial (ascii_of_nat 239)) with false.
    change (markdownSpecial (ascii_of_nat 188)) with false.
    change (markdownSpecial (ascii_of_nat 160)) with false.
    change (markdownSpecial "@") with false.
    change (Ascii.eqb (ascii_of_nat 239) "\") with false.
    change (Ascii.eqb (ascii_of_nat 188) "\") with false.
    change (Ascii.eqb (ascii_of_nat 160) "\") with false.
    change (Ascii.eqb "@" "\") with false.
    cbn [andb]. apply IH.
  - string_step. rewrite IH. reflexivity.
Qed.

Lemma collapse_singleSpaced (s : string) (r : bool) :
  singleSpaced r (JS.collapseSpaces r s) = true.
Proof.
  revert r. induction s as [|c t IH]; intros r; [reflexivity |].
  string_step. destruct (JS.isSpace c) eqn:Hsp.
  - destruct r; [apply IH |]. string_step.
    change (JS.isSpace " ") with true. change (Ascii.eqb " " " ") with true.
    cbn [andb negb]. apply IH.
  - string_step. rewrite Hsp. apply IH.
Qed.

Lemma at_noDoubleSpace (s : string) (b : bool) :
  noDoubleSpace b (JS.replaceAll (Ascii.eqb "@") (fun _ => fullwidthAt) s)
  = noDoubleSpace b s.
Proof.
  revert b. induction s as [|c t IH]; intros b; [reflexivity |].
  string_step. destruct (Ascii.eqb_spec "@"%char c) as [<- | Hc].
  - unfold fullwidthAt. cbn [append noDoubleSpace].
    change (Ascii.eqb (ascii_of_nat 239) " ") with false.
    change (Ascii.eqb (ascii_of_nat 188) " ") with false.
    change (Ascii.eqb (ascii_of_nat 160) " ") with false.
    change (Ascii.eqb "@" " ") with false.
    apply IH.
  - cbn [append noDoubleSpace]. destruct (Ascii.eqb c " "); rewrite IH; reflexivity.
Qed.

Lemma singleSpaced_noDoubleSpace (s : string) (b : bool) :
  singleSpaced b s = true -> noDoubleSpace b s = true.
Proof.
  revert b. induction s as [|c t IH]; intros b H; [reflexivity |].
  string_step_in H. cbn [noDoubleSpace].
  destruct (Ascii.eqb_spec c " "%char) as [-> | Hc].
  - change (JS.isSpace " ") with true in H. cbn [andb] in H.
    apply andb_true_iff in H. destruct H as [Hb H]. rewrite Hb. cbn [andb].
    exact (IH true H).
  - destruct (JS.isSpace c); [discriminate H | exact (IH false H)].
Qed.

Lemma at_keeps_noChar (s : string) (c : ascii) :
  noChar c fullwidthAt = true -> noChar c s = true ->
  noChar c (JS.replaceAll (Ascii.eqb "@") (fun _ => fullwidthAt) s) = true.
Proof.
  intros Hat. induction s as [|x t IH]; intros H; [reflexivity |].
  string_step. string_step_in H. apply andb_true_iff in H. destruct H as [Hx H].
  destruct (Ascii.eqb "@"%char x).
  - revert Hat. unfold fullwidthAt. string_step. intros Hat.
    repeat (apply andb_true_iff in Hat; destruct Hat as [?H Hat]).
    repeat (apply andb_true_iff; split; [assumption |]). exact (IH H).
  - string_step. rewrite Hx. exact (IH H).
Qed.

Lemma at_noChar (s : string) :
  noChar "@" (JS.replaceAll (Ascii.eqb "@") (fun _ => fullwidthAt) s) = true.
Proof.
  induction s as [|c t IH]; [reflexivity |].
  string_step. destruct (Ascii.eqb_spec "@"%char c) as [<- | Hc].
  - unfold fullwidthAt in *. string_step. rewrite IH. reflexivity.
  - string_step. rewrite IH.
    destruct (Ascii.eqb_spec c "@"%char) as [-> | _]; [congruence | reflexivity].
Qed.

Lemma singleSpaced_noSpace (s : string) (b : bool) (c : ascii) :
  JS.isSpace c = true -> c <> " "%char ->
  singleSpaced b s = true -> noChar c s = true.
Proof.
  intros Hsp Hc. revert b. induction s as [|x t IH]; intros b H; [reflexivity |].
  string_step. string_step_in H. destruct (Ascii.eqb_spec x c) as [-> | Hx].
  - rewrite Hsp in H. destruct (Ascii.eqb_spec c " "%char); [congruence | discriminate].
  - cbn [negb andb]. destruct (JS.isSpace x).
    + apply andb_true_iff in H. destruct H as [_ H]. exact (IH true H).
    + exact (IH false H).
Qed.

(** X1: white space in the cleaned text.  The last step of
    [cleanTextForMarkdown] writes the full-width commercial at for every [@]
    of the text [collapsed] that the first three steps produce, and
    [collapsed] holds no white space (tab, line feed, vertical tab, form
    feed, carriage return, no-break space) but single spaces.  So the
    cleaned text holds none of the first five, no two spaces in a row and no
    [@], whatever the text was. *)
Theorem cleanTextForMarkdown_spacing (str : string) :
  let collapsed :=
    JS.collapseSpaces false
      (JS.replaceAll (Ascii.eqb (ascii_of_nat 10)) (fun _ => " ")
         (JS.replaceAll markdownSpecial (fun c => String "\" (String c EmptyString)) str)) in
  cleanTextForMarkdown str
  = JS.replaceAll (Ascii.eqb "@") (fun _ => fullwidthAt) collapsed
  /\ singleSpaced false collapsed = true
  /\ (forall c, In c (map ascii_of_nat [9; 10; 11; 12; 13; 160]%nat) ->
        noChar c collapsed = true)
  /\ (forall c, In c (map ascii_of_nat [9; 10; 11; 12; 13]%nat) ->
        noChar c (cleanTextForMarkdown str) = true)
  /\ noDoubleSpace false (cleanTextForMarkdown str) = true
  /\ noChar "@" (cleanTextForMarkdown str) = true.
Proof.
  intros collapsed.
  assert (Hspaced : singleSpaced false collapsed = true)
    by apply collapse_singleSpaced.
  assert (Hclean : cleanTextForMarkdown str
                   = JS.replaceAll (Ascii.eqb "@") (fun _ => fullwidthAt) collapsed)
    by reflexivity.
  assert (Hnone : forall c, In c (map ascii_of_nat [9; 10; 11; 12; 13; 160]%nat) ->
                            noChar c collapsed = true).
  { intros c Hc. cbn [map In] in Hc.
    repeat (destruct Hc as [<- | Hc];
            [apply (singleSpaced_noSpace _ false);
             [reflexivity | discriminate | exact Hspaced] |]).
    destruct Hc. }
  split; [exact Hclean | split; [exact Hspaced | split; [exact Hnone | split; [| split]]]].
  - intros c Hc. rewrite Hclean. apply at_keeps_noChar.
    + cbn [map In] in Hc.
      repeat (destruct Hc as [<- | Hc]; [reflexivity |]). destruct Hc.
    + apply Hnone. cbn [map In] in Hc |- *. tauto.
  - rewrite Hclean, at_noDoubleSpace.
    apply singleSpaced_noDoubleSpace. exact Hspaced.
  - rewrite Hclean. apply at_noChar.
Qed.

(** X2: in the cleaned text every character that MarkdownV2 reserves (the
    class of the first replacement) comes right after a backslash. *)
Theorem cleanTextForMarkdown_escapes (str : string) :
  wellEscaped false (cleanTextForMarkdown str) = true.
Proof.
  unfold cleanTextForMarkdown.
  rewrite at_wellEscaped. apply collapse_wellEscaped.
  rewrite newline_wellEscaped. apply escape_wellEscaped.
Qed.

(** ** Menus and the actions behind their buttons *)

Lemma chunk2_rows {A} (n : nat) (l : list A) :
  (List.length l <= n)%nat ->
  concat (chunk2 l) = l
  /\ Forall (fun row => (1 <= List.length row <= 2)%nat) (chunk2 l).
Proof.
  revert l. induction n as [|n IH]; intros l Hlen.
  - destruct l; [split; [reflexivity | constructor] | cbn in Hlen; lia].
  - destruct l as [|a [|b t]].
    + split; [reflexivity | constructor].
    + split; [reflexivity |]. constructor; [cbn; lia | constructor].
    + destruct (IH t) as [Hconcat Hrows]; [cbn in Hlen; lia |].
      split.
      * cbn [chunk2 concat app]. rewrite Hconcat. reflexivity.
      * cbn [chunk2]. constructor; [cbn; lia | exact Hrows].
Qed.

(** X3: the option menu is one reply whose keyboard shows every option once,
    in the order of the list, in rows of one or two buttons; each button
    carries the title of its option and the command followed by an
    underscore and the slug. *)
Theorem displayOptionMenu_rows {T} (show : T -> string) (options : list (Option T))
    (command choice : string) (c : Ctx) :
  displayOptionMenu show options command choice c
  = (Ok tt, replied c [InlineKeyboard ("Select a " ++ choice ++ ": ")
                         (optionRows show options command)])
  /\ concat (optionRows show options command)
     = map (fun o => {| label := title_of o; data := command ++ "_" ++ show (slug o) |})
         options
  /\ Forall (fun row => (1 <= List.length row <= 2)%nat) (optionRows show options command).
Proof.
  destruct (chunk2_rows (List.length options) options (Nat.le_refl _)) as [Hconcat Hrows].
  split; [reflexivity | split].
  - unfold optionRows. rewrite <- concat_map, Hconcat. reflexivity.
  - unfold optionRows. apply Forall_map.
    eapply Forall_impl; [| exact Hrows]. intros row Hrow. rewrite length_map. exact Hrow.
Qed.

Lemma drop_app (a b : string) : JS.drop (String.length a) (a ++ b) = b.
Proof.
  induction a as [|x a IH]; [destruct b; reflexivity | exact IH].
Qed.

Lemma append_assoc (a b c : string) : (a ++ b) ++ c = a ++ (b ++ c).
Proof.
  induction a as [|x a IH]; cbn; [reflexivity | rewrite IH; reflexivity].
Qed.

Lemma execAfter_here (lit captured : string) :
  captured <> EmptyString ->
  takeLine captured = captured ->
  execAfter lit (lit ++ captured) = Some captured.
Proof.
  intros Hne Hline.
  assert (Hprefix : String.prefix lit (lit ++ captured) = true)
    by (apply prefix_app; eauto).
  pose proof (drop_app lit captured) as Hdrop.
  destruct (lit ++ captured) as [|x t]; cbn [execAfter];
    rewrite Hprefix, Hdrop, Hline; destruct captured; congruence.
Qed.

(** X4: what the keyboards encode the triggers decode.  The data
    [command_text] gives [text] back to a trigger [/command_(.+)/] for every
    non-empty text of one line; every sector button triggers the sector
    action with the slug of its option, every type button the type action,
    and every button of the main menu a registered action; two options
    never share a slug. *)
Theorem buttons_reach_their_actions :
  (forall command captured,
      captured <> EmptyString -> takeLine captured = captured ->
      execAfter (command ++ "_") (command ++ "_" ++ captured) = Some captured)
  /\ (forall s : SectorSlug,
        matchAction ("setsector" ++ "_" ++ sectorSlug s) = SectorData (sectorSlug s))
  /\ (forall t : ReadsTag,
        matchAction ("settype" ++ "_" ++ tagSlug t) = TypeData (tagSlug t))
  /\ (forall b, In b (concat mainMenu) ->
        exists name, matchAction (data b) = NamedAction name
                     /\ commandName name = data b
                     /\ forall P, bot_action P name = Some (bot_command P name))
  /\ (forall s s', sectorSlug s = sectorSlug s' -> s = s')
  /\ (forall t t', tagSlug t = tagSlug t' -> t = t').
Proof.
  split; [| split; [| split; [| split; [| split]]]].
  - intros command captured Hne Hline.
    rewrite <- append_assoc. apply execAfter_here; assumption.
  - intros s; destruct s; reflexivity.
  - intros t; destruct t; reflexivity.
  - intros b Hin. cbn in Hin.
    repeat (destruct Hin as [<- | Hin];
            [eexists; split; [reflexivity | split; [reflexivity | intros P; reflexivity]] |]).
    destruct Hin.
  - intros s s'; destruct s, s'; cbn; intros H; try reflexivity; discriminate H.
  - intros t t'; destruct t, t'; cbn; intros H; try reflexivity; discriminate H.
Qed.

(** ** What publishing can do to the session *)

Lemma handlePost_cases (P : Platform) (c : Ctx) :
  fst (handlePost P c) = Ok tt
  /\ callbackQuery (snd (handlePost P c)) = callbackQuery c
  /\ (session (snd (handlePost P c)) = session c
      \/ (session (snd (handlePost P c)) = createDefaultSession
          /\ link (item (session c)) <> EmptyString
          /\ exists q status,
               callbackQuery c = Some q
               /\ storage_service P (item (session c)) (from_username q) = Some status
               /\ (status = 409%Z \/ (status <= 201)%Z))).
Proof.
  destruct c as [s cq rs].
  unfold handlePost, ensureLinkSet, getItem.
  run_publish.
  destruct (link (item s)) as [|x l] eqn:Hlink; cbn [JS.falsy].
  - cbn. auto.
  - destruct cq as [q|]; cbn; [| auto].
    destruct (storage_service P (item s) (from_username q)) as [status|] eqn:Hstatus;
      cbn; [| auto].
    destruct (status =? 403)%Z eqn:H403; cbn; [auto |].
    destruct (status =? 409)%Z eqn:H409; cbn.
    + apply Z.eqb_eq in H409. split; [reflexivity | split; [reflexivity |]].
      right. split; [reflexivity | split; [discriminate |]].
      exists q, status. auto.
    + destruct (201 <? status)%Z eqn:H201; cbn; [auto |].
      apply Z.ltb_ge in H201. split; [reflexivity | split; [reflexivity |]].
      right. split; [reflexivity | split; [discriminate |]].
      exists q, status. auto.
Qed.

(** X5: publishing never throws, whatever the storage API does, and it
    either leaves the session as it was or resets it to the default session;
    the draft is discarded only when its link was set and the storage API
    answered 409 or a status up to 201. *)
Theorem handlePost_keeps_or_resets (P : Platform) (c : Ctx) :
  fst (handlePost P c) = Ok tt
  /\ (session (snd (handlePost P c)) = session c
      \/ (session (snd (handlePost P c)) = createDefaultSession
          /\ link (item (session c)) <> EmptyString
          /\ exists q status,
               callbackQuery c = Some q
               /\ storage_service P (item (session c)) (from_username q) = Some status
               /\ (status = 409%Z \/ (status <= 201)%Z))).
Proof.
  destruct (handlePost_cases P c) as [Hok [_ Hsession]]. split; assumption.
Qed.

(** X6: the command [/publish] cannot publish.  On a message there is no
    callback query to read the user name from: with a link set, the handler
    answers with the message of the unknown failure and leaves the session
    as it is, whatever the platform, and so whatever the storage API would
    have answered. *)
Theorem publish_command_never_posts (P : Platform) (s : ReadsSession) :
  link (item s) <> EmptyString ->
  handleUpdate P (CommandUpdate publish) s
  = (Ok tt,
     {| session := s; callbackQuery := None;
        replies := [Text "Oops, something went wrong - try to /publish again or start over with /new"] |}).
Proof.
  intros Hlink. cbn [handleUpdate bot_command].
  destruct (publish_without_callback_query P (messageCtx s) Hlink eq_refl) as [_ Hpost].
  rewrite Hpost. reflexivity.
Qed.

Lemma publish_command_never_posts_witness :
  handleUpdate (fixedPlatform None None None (Some 200%Z)) (CommandUpdate publish)
    {| state := build; item := draftItem |}
  = (Ok tt,
     {| session := {| state := build; item := draftItem |}; callbackQuery := None;
        replies := [Text "Oops, something went wrong - try to /publish again or start over with /new"] |}).
Proof.
  apply (publish_command_never_posts (fixedPlatform None None None (Some 200%Z))
           {| state := build; item := draftItem |}).
  discriminate.
Defined.

(** ** The outcomes of a link *)

(** The five ways [handleUpdateUrl] ends. *)
Lemma handleUpdateUrl_cases (P : Platform) (url : string) (c : Ctx) :
  (exists e, normalizeUrl P url = Throw e
             /\ handleUpdateUrl P url c = (Throw e, fetching c))
  \/ (exists cleanUrl metadata,
        normalizeUrl P url = Ok cleanUrl
        /\ metadataStage P cleanUrl = Ok metadata
        /\ handleUpdateUrl P url c
           = nextState (inSession (fetching c)
                          {| state := build; item := metadataItem cleanUrl metadata |}))
  \/ (exists cleanUrl,
        normalizeUrl P url = Ok cleanUrl
        /\ metadataStage P cleanUrl = Throw ERROR_DUPLICATE_READ
        /\ handleUpdateUrl P url c
           = (Ok tt, replied (fetching c) [Text "Oops, this url was recently added already"]))
  \/ (exists cleanUrl e summary,
        normalizeUrl P url = Ok cleanUrl
        /\ metadataStage P cleanUrl = Throw e /\ e <> ERROR_DUPLICATE_READ
        /\ fetchUrlSummary P cleanUrl = Ok summary
        /\ handleUpdateUrl P url c
           = nextState (inSession (fetching c)
                          {| state := build; item := summaryItem cleanUrl summary |}))
  \/ (exists cleanUrl e,
        normalizeUrl P url = Ok cleanUrl
        /\ metadataStage P cleanUrl = Throw e /\ e <> ERROR_DUPLICATE_READ
        /\ fetchUrlSummary P cleanUrl = Throw OPENAI_ERROR
        /\ handleUpdateUrl P url c
           = (Ok tt,
              replied (inSession (fetching c) {| state := await_url; item := createNewItem |})
                [Text "sorry, I could not fetch that url";
                 Text "what url do you want post?"])).
Proof.
  destruct (normalizeUrl P url) as [cleanUrl|e] eqn:Hurl.
  - destruct (metadataStage P cleanUrl) as [metadata|e] eqn:Hmeta.
    + right; left. exists cleanUrl, metadata.
      split; [reflexivity | split; [exact Hmeta |]].
      apply (handleUpdateUrl_metadata P url cleanUrl); assumption.
    + destruct (String.eqb_spec e ERROR_DUPLICATE_READ) as [-> | He].
      * right; right; left. exists cleanUrl.
        split; [reflexivity | split; [exact Hmeta |]].
        apply (handleUpdateUrl_duplicate P url cleanUrl); assumption.
      * destruct (fetchUrlSummary P cleanUrl) as [summary|e'] eqn:Hsum.
        -- right; right; right; left. exists cleanUrl, e, summary.
           repeat (split; [assumption || reflexivity |]).
           apply (handleUpdateUrl_fallback P url cleanUrl e); assumption.
        -- right; right; right; right. exists cleanUrl, e.
           assert (He' : e' = OPENAI_ERROR).
           { unfold fetchUrlSummary in Hsum.
             destruct (completion_service P cleanUrl); [discriminate | congruence]. }
           subst e'.
           repeat (split; [assumption || reflexivity |]).
           apply (handleUpdateUrl_unresolved P url cleanUrl e OPENAI_ERROR); assumption.
  - left. exists e. split; [reflexivity |]. apply handleUpdateUrl_invalid. exact Hurl.
Qed.

(** X7: a link never builds on the previous draft.  The outcome of
    [handleUpdateUrl] (result, session and replies) is the same whatever the
    session was before; and a text message that starts with [http:] or
    [https:] and carries no registered command is handled as a link in every
    state, with the outcome the same message has on the default session: no
    title, description, image, sector or type of the earlier draft is left,
    and the state the conversation was in plays no part. *)
Theorem link_restarts_the_draft (P : Platform) (text : string) :
  (forall c s, handleUpdateUrl P text (inSession c s) = handleUpdateUrl P text c)
  /\ (forall command s,
        hearsUrl text = true -> commandNamed command = None ->
        handleUpdate P (TextUpdate text command) s
        = handleUpdateUrl P text (messageCtx createDefaultSession)
        /\ handleUpdate P (TextUpdate text command) s
           = handleUpdate P (TextUpdate text command) createDefaultSession).
Proof.
  assert (Hreset : forall c s,
             handleUpdateUrl P text (inSession c s) = handleUpdateUrl P text c).
  { intros c s. destruct c as [s0 q rs]. reflexivity. }
  split; [exact Hreset |].
  intros command s Hurl Hcommand. cbn [handleUpdate]. rewrite Hcommand, Hurl.
  destruct (String.eqb_spec text "state") as [-> | _]; [discriminate Hurl |].
  split; [exact (Hreset (messageCtx createDefaultSession) s) |].
  exact (Hreset (messageCtx createDefaultSession) s).
Qed.

Lemma link_restarts_the_draft_witness :
  handleUpdate (fixedPlatform (Some (200%Z, Some someMetadata)) (Some []) None None)
    (TextUpdate "https://bloomberg.com/a" None)
    {| state := await_title; item := draftItem |}
  = handleUpdateUrl (fixedPlatform (Some (200%Z, Some someMetadata)) (Some []) None None)
      "https://bloomberg.com/a" (messageCtx createDefaultSession).
Proof.
  apply (proj2 (link_restarts_the_draft
                  (fixedPlatform (Some (200%Z, Some someMetadata)) (Some []) None None)
                  "https://bloomberg.com/a") None
               {| state := await_title; item := draftItem |});
    reflexivity.
Defined.

Lemma handleUpdateUrl_throw_iff (P : Platform) (url : string) (c : Ctx) :
  (forall e, fst (handleUpdateUrl P url c) = Throw e <-> normalizeUrl P url = Throw e)
  /\ (forall e, normalizeUrl P url = Throw e ->
        snd (handleUpdateUrl P url c)
        = {| session := createDefaultSession;
             callbackQuery := callbackQuery c;
             replies := replies c ++ [Text "fetching that url, hang on a sec..."] |})
  /\ (forall cleanUrl, normalizeUrl P url = Ok cleanUrl ->
        fst (handleUpdateUrl P url c) = Ok tt).
Proof.
  pose proof (handleUpdateUrl_cases P url c)
    as [[e [Hurl Hrun]] | [[cleanUrl [metadata [Hurl [_ Hrun]]]]
       | [[cleanUrl [Hurl [_ Hrun]]] | [[cleanUrl [e [summary [Hurl [_ [_ [_ Hrun]]]]]]]
       | [cleanUrl [e [Hurl [_ [_ [_ Hrun]]]]]]]]]];
    rewrite Hrun, Hurl;
    try (pose proof (nextState_item (inSession (fetching c)
           {| state := build; item := metadataItem cleanUrl metadata |})) as [Hok _]);
    try (pose proof (nextState_item (inSession (fetching c)
           {| state := build; item := summaryItem cleanUrl summary |})) as [Hok _]);
    try rewrite Hok; cbn [fst snd];
    (split; [intros e0; split; intros H; congruence | split; intros; congruence])
    || (split; [intros e0; split; intros H; congruence
               | split; [intros e0 H; reflexivity | intros; congruence]]).
Qed.

(** X8: a link ends in an exception exactly when its normalization does;
    the session is then the default session again and the only reply is the
    notice that the link is being fetched.  In every other case the handler
    returns. *)
Theorem handleUpdateUrl_throws (P : Platform) (url : string) (c : Ctx) :
  (forall e, fst (handleUpdateUrl P url c) = Throw e <-> normalizeUrl P url = Throw e)
  /\ (forall e, normalizeUrl P url = Throw e ->
        snd (handleUpdateUrl P url c)
        = {| session := createDefaultSession;
             callbackQuery := callbackQuery c;
             replies := replies c ++ [Text "fetching that url, hang on a sec..."] |})
  /\ (forall cleanUrl, normalizeUrl P url = Ok cleanUrl ->
        fst (handleUpdateUrl P url c) = Ok tt).
Proof.
  exact (handleUpdateUrl_throw_iff P url c).
Qed.

(** ** Invariants of the sessions the bot can reach *)

Lemma defaultTagsForUrl_single (url : string) :
  (List.length (defaultTagsForUrl url) <= 1)%nat.
Proof.
  destruct (defaultTagsForUrl_first url) as [[domain [domainTags [Hin [_ ->]]]] | [_ ->]].
  - unfold defaultTagsForDomain in Hin. cbn in Hin.
    repeat (destruct Hin as [Hin | Hin]; [injection Hin as _ <-; cbn; lia |]).
    destruct Hin.
  - cbn. lia.
Qed.

Ltac finish_single :=
  try assumption; try (cbn; lia); try (split; cbn; try lia; tauto).

Lemma handleUpdateUrl_singleValued (P : Platform) (url : string) (c : Ctx) :
  singleValued (session (snd (handleUpdateUrl P url c))).
Proof.
  unfold singleValued.
  pose proof (handleUpdateUrl_cases P url c)
    as [[e [_ Hrun]] | [[cleanUrl [metadata [_ [_ Hrun]]]]
       | [[cleanUrl [_ [_ Hrun]]] | [[cleanUrl [e [summary [_ [_ [_ [_ Hrun]]]]]]]
       | [cleanUrl [e [_ [_ [_ [_ Hrun]]]]]]]]]];
    rewrite Hrun.
  - cbn. lia.
  - destruct (nextState_item (inSession (fetching c)
                {| state := build; item := metadataItem cleanUrl metadata |}))
      as [_ [-> _]].
    cbn. split; [lia | apply defaultTagsForUrl_single].
  - cbn. lia.
  - destruct (nextState_item (inSession (fetching c)
                {| state := build; item := summaryItem cleanUrl summary |}))
      as [_ [-> _]].
    cbn. lia.
  - cbn. lia.
Qed.

Lemma handleUpdate_singleValued (P : Platform) (u : Update) (s : ReadsSession) :
  singleValued s -> singleValued (session (snd (handleUpdate P u s))).
Proof.
  intros Hinv.
  assert (Hpost : forall c, session c = s -> singleValued (session (snd (handlePost P c)))).
  { intros c Hc. destruct (handlePost_cases P c) as [_ [_ [-> | [-> _]]]].
    - rewrite Hc. exact Hinv.
    - unfold singleValued. cbn. lia. }
  assert (Hcommand : forall name,
             singleValued (session (snd (bot_command P name (messageCtx s))))).
  { intros name. destruct name; cbn [bot_command]; try (apply Hpost; reflexivity);
      destruct s as [st it]; unfold singleValued in *; run_all; destruct st; cbn in *;
      split_ifs; finish_single. }
  destruct u as [name | name query | choice query | choice query | text command];
    cbn [handleUpdate];
    [| | | | destruct (commandNamed command) as [name |]; [apply Hcommand |]].
  - apply Hcommand.
  - destruct name; cbn [bot_action]; try exact Hinv; try (apply Hpost; reflexivity);
      destruct s as [st it]; unfold singleValued, actionCtx in *; run_all; destruct st;
      cbn in *; split_ifs; finish_single.
  - destruct s as [st it]; unfold singleValued, actionCtx in *; run_all; destruct st;
      cbn in *; split_ifs; finish_single.
  - destruct s as [st it]; unfold singleValued, actionCtx in *; run_all; destruct st;
      cbn in *; split_ifs; finish_single.
  - destruct (String.eqb text "state"); [exact Hinv |].
    destruct (hearsUrl text); [apply handleUpdateUrl_singleValued |].
    unfold onText, bind, getSession. cbn [messageCtx session].
    destruct (state s) eqn:Hst; try exact Hinv;
      try apply handleUpdateUrl_singleValued;
      destruct s as [st it]; cbn in Hst; subst st; unfold singleValued in *; run_all;
      split_ifs; finish_single.
Qed.

Lemma nextState_building (c : Ctx) :
  state (session c) = build -> building (session (snd (nextState c))).
Proof.
  intros Hst. unfold building. rewrite nextState_state, Hst. cbn [ReadsState_eqb andb].
  destruct (JS.falsy (title (item (session c))) && negb (JS.falsy (link (item (session c)))));
    auto.
Qed.

Lemma building_idleUnlinked (s : ReadsSession) : building s -> idleUnlinked s.
Proof.
  unfold building, idleUnlinked. intros [-> | [-> | ->]]; exact I.
Qed.

Lemma handleUpdateUrl_idleUnlinked (P : Platform) (url : string) (c : Ctx) :
  idleUnlinked (session (snd (handleUpdateUrl P url c))).
Proof.
  pose proof (handleUpdateUrl_cases P url c)
    as [[e [_ Hrun]] | [[cleanUrl [metadata [_ [_ Hrun]]]]
       | [[cleanUrl [_ [_ Hrun]]] | [[cleanUrl [e [summary [_ [_ [_ [_ Hrun]]]]]]]
       | [cleanUrl [e [_ [_ [_ [_ Hrun]]]]]]]]]];
    rewrite Hrun;
    try (apply building_idleUnlinked; apply nextState_building; reflexivity);
    reflexivity.
Qed.

Lemma handleUpdate_idleUnlinked (P : Platform) (u : Update) (s : ReadsSession) :
  idleUnlinked s -> idleUnlinked (session (snd (handleUpdate P u s))).
Proof.
  intros Hinv.
  assert (Hpost : forall c, session c = s -> idleUnlinked (session (snd (handlePost P c)))).
  { intros c Hc. destruct (handlePost_cases P c) as [_ [_ [-> | [-> _]]]].
    - rewrite Hc. exact Hinv.
    - reflexivity. }
  assert (Hcommand : forall name,
             idleUnlinked (session (snd (bot_command P name (messageCtx s))))).
  { intros name. destruct name; cbn [bot_command]; try (apply Hpost; reflexivity);
      destruct s as [st it]; unfold idleUnlinked in *; run_all; destruct st; cbn in *;
      split_ifs. }
  destruct u as [name | name query | choice query | choice query | text command];
    cbn [handleUpdate];
    [| | | | destruct (commandNamed command) as [name |]; [apply Hcommand |]].
  - apply Hcommand.
  - destruct name; cbn [bot_action]; try exact Hinv; try (apply Hpost; reflexivity);
      destruct s as [st it]; unfold idleUnlinked, actionCtx in *; run_all; destruct st;
      cbn in *; split_ifs.
  - destruct s as [st it]; unfold idleUnlinked, actionCtx in *; run_all; destruct st;
      cbn in *; split_ifs.
  - destruct s as [st it]; unfold idleUnlinked, actionCtx in *; run_all; destruct st;
      cbn in *; split_ifs.
  - destruct (String.eqb text "state"); [exact Hinv |].
    destruct (hearsUrl text); [apply handleUpdateUrl_idleUnlinked |].
    unfold onText, bind, getSession. cbn [messageCtx session].
    destruct (state s) eqn:Hst; try exact Hinv;
      try apply handleUpdateUrl_idleUnlinked;
      destruct s as [st it]; cbn in Hst; subst st; unfold idleUnlinked in *; run_all;
      split_ifs.
Qed.

(** X9: sector and type are single-valued.  Every update keeps the draft
    with at most one sector and at most one type, so that every session
    reached from the default session has at most one of each. *)
Theorem sector_and_type_single_valued (P : Platform) :
  (forall u s, singleValued s -> singleValued (session (snd (handleUpdate P u s))))
  /\ (forall us, singleValued (sessionAfter P us createDefaultSession)).
Proof.
  split; [intros u s; apply handleUpdate_singleValued |].
  assert (Hall : forall us s, singleValued s -> singleValued (sessionAfter P us s)).
  { induction us as [|u rest IH]; intros s Hs; cbn; [exact Hs |].
    apply IH. apply handleUpdate_singleValued. exact Hs. }
  intros us. apply Hall. unfold singleValued. cbn. lia.
Qed.

(** X10: as long as the origin of a parsed URL is never empty, a session
    reached from the default session has a link exactly when its state is
    [build], [await_title] or [await_description]: no draft is under way
    without a link, and no link outlives its draft. *)
Theorem link_exactly_while_building (P : Platform) (us : list Update) :
  originNonEmpty P ->
  link (item (sessionAfter P us createDefaultSession)) <> EmptyString
  <-> building (sessionAfter P us createDefaultSession).
Proof.
  intros Horigin.
  pose proof (sessionAfter_linked P us createDefaultSession Horigin I) as Hlinked.
  assert (Hidle : forall us s, idleUnlinked s -> idleUnlinked (sessionAfter P us s)).
  { clear. induction us as [|u rest IH]; intros s Hs; cbn; [exact Hs |].
    apply IH. apply handleUpdate_idleUnlinked. exact Hs. }
  specialize (Hidle us createDefaultSession eq_refl).
  unfold linked in Hlinked. unfold idleUnlinked in Hidle. unfold building.
  destruct (state (sessionAfter P us createDefaultSession)); split;
    try (intros; exact Hlinked); auto; try congruence;
    intros [H | [H | H]]; discriminate H.
Qed.

Lemma link_exactly_while_building_witness :
  link (item (sessionAfter
                (fixedPlatform (Some (200%Z, Some untitledMetadata)) (Some []) None None)
                [CommandUpdate new; TextUpdate "bloomberg.com/a" None] createDefaultSession))
  <> EmptyString
  <-> building (sessionAfter
                  (fixedPlatform (Some (200%Z, Some untitledMetadata)) (Some []) None None)
                  [CommandUpdate new; TextUpdate "bloomberg.com/a" None] createDefaultSession).
Proof.
  apply (link_exactly_while_building
           (fixedPlatform (Some (200%Z, Some untitledMetadata)) (Some []) None None)
           [CommandUpdate new; TextUpdate "bloomberg.com/a" None]).
  apply fixedPlatform_originNonEmpty.
Defined.

(** ** The metadata of a link *)

(** X11: the metadata is used only when the list of reads could be read.
    When the metadata service answers 200 with metadata but the request for
    the list fails, the handler goes to the summary of the link: with a
    summary the title of the draft is the normalized link, not the title of
    the metadata, and without one the session is back in [await_url] with an
    empty draft. *)
Theorem metadata_dropped_without_list (P : Platform) (url cleanUrl : string)
    (metadata : UrlMetadata) (c : Ctx) :
  normalizeUrl P url = Ok cleanUrl ->
  metadata_service P cleanUrl = Some (200%Z, Some metadata) ->
  list_service P = None ->
  (forall summary, completion_service P cleanUrl = Some summary ->
     title (item (session (snd (handleUpdateUrl P url c)))) = cleanUrl
     /\ description (item (session (snd (handleUpdateUrl P url c)))) = summary
     /\ image_url (item (session (snd (handleUpdateUrl P url c)))) = EmptyString)
  /\ (completion_service P cleanUrl = None ->
     session (snd (handleUpdateUrl P url c))
     = {| state := await_url; item := createNewItem |}).
Proof.
  intros Hurl Hmeta Hlist.
  assert (Hstage : metadataStage P cleanUrl = Throw FETCH_FAILED).
  { unfold metadataStage, fetchUrlMetadata, ensureNonDuplicateLink.
    rewrite Hmeta, Hlist. reflexivity. }
  assert (Hne : FETCH_FAILED <> ERROR_DUPLICATE_READ) by discriminate.
  split.
  - intros summary Hsum.
    rewrite (fallback_path_item P url cleanUrl FETCH_FAILED summary c Hurl Hstage Hne).
    + auto.
    + unfold fetchUrlSummary. rewrite Hsum. reflexivity.
  - intros Hsum.
    rewrite (handleUpdateUrl_unresolved P url cleanUrl FETCH_FAILED OPENAI_ERROR c
               Hurl Hstage Hne).
    + reflexivity.
    + unfold fetchUrlSummary. rewrite Hsum. reflexivity.
Qed.

Lemma metadata_dropped_without_list_witness :
  title (item (session (snd (handleUpdateUrl
           (fixedPlatform (Some (200%Z, Some someMetadata)) None (Some "A summary.") None)
           "bloomberg.com/a" (messageCtx createDefaultSession)))))
  = "https://bloomberg.com/a".
Proof.
  apply (proj1 (metadata_dropped_without_list
                  (fixedPlatform (Some (200%Z, Some someMetadata)) None
                     (Some "A summary.") None)
                  "bloomberg.com/a" "https://bloomberg.com/a" someMetadata
                  (messageCtx createDefaultSession) eq_refl eq_refl eq_refl)
           "A summary." eq_refl).
Defined.

Lemma metadataDescription_bound (d : option string) :
  (String.length (metadataDescription d) <= 500)%nat.
Proof.
  destruct d as [d|]; [| cbn; lia].
  destruct (Nat.le_gt_cases (String.length d) 500) as [Hle | Hgt].
  - rewrite (proj2 (metadataDescription_truncates d) Hle). exact Hle.
  - rewrite (proj2 (proj1 (metadataDescription_truncates d) Hgt)). lia.
Qed.

(** X12: a description taken from the metadata never exceeds 500
    characters in the draft.  It is the description of the metadata when
    that has at most 500 characters, its first 497 characters and three dots
    when it has more, and empty when the metadata has none. *)
Theorem metadata_description_bounded (P : Platform) (url cleanUrl : string)
    (metadata : UrlMetadata) (c : Ctx) :
  normalizeUrl P url = Ok cleanUrl ->
  metadataStage P cleanUrl = Ok metadata ->
  (String.length (description (item (session (snd (handleUpdateUrl P url c))))) <= 500)%nat
  /\ (forall d, md_description metadata = Some d ->
        ((String.length d <= 500)%nat ->
           description (item (session (snd (handleUpdateUrl P url c)))) = d)
        /\ ((500 < String.length d)%nat ->
           description (item (session (snd (handleUpdateUrl P url c))))
           = JS.substring0 497 d ++ "..."
           /\ String.length (description (item (session (snd (handleUpdateUrl P url c)))))
              = 500%nat))
  /\ (md_description metadata = None ->
        description (item (session (snd (handleUpdateUrl P url c)))) = EmptyString).
Proof.
  intros Hurl Hmeta.
  rewrite (metadata_path_item P url cleanUrl metadata c Hurl Hmeta).
  cbn [description metadataItem].
  split; [apply metadataDescription_bound | split].
  - intros d ->. exact (conj (proj2 (metadataDescription_truncates d))
                              (proj1 (metadataDescription_truncates d))).
  - intros ->. reflexivity.
Qed.

Lemma metadata_description_bounded_witness :
  String.length (description (item (session (snd (handleUpdateUrl
     (fixedPlatform
        (Some (200%Z, Some {| md_title := None;
                              md_description := Some (repeatChar "a" 520);
                              md_image := None |}))
        (Some []) None None)
     "example.com/a" (messageCtx createDefaultSession))))))
  = 500%nat.
Proof.
  destruct (metadata_description_bounded
              (fixedPlatform
                 (Some (200%Z, Some {| md_title := None;
                                       md_description := Some (repeatChar "a" 520);
                                       md_image := None |}))
                 (Some []) None None)
              "example.com/a" "https://example.com/a"
              {| md_title := None; md_description := Some (repeatChar "a" 520);
                 md_image := None |}
              (messageCtx createDefaultSession) eq_refl eq_refl) as [_ [Hsome _]].
  destruct (Hsome (repeatChar "a" 520) eq_refl) as [_ Hlong].
  apply Hlong. vm_compute. lia.
Defined.

(** X13: the guard reports a duplicate exactly when the list of reads could
    be read and one of its links is the link, character for character; a
    list that cannot be read is a failure of another kind, and any other
    link passes. *)
Theorem ensureNonDuplicateLink_exact (P : Platform) (link : string) :
  (ensureNonDuplicateLink P link = Throw ERROR_DUPLICATE_READ
   <-> exists page, list_service P = Some page /\ In link page)
  /\ (ensureNonDuplicateLink P link = Ok tt
      <-> exists page, list_service P = Some page /\ ~ In link page)
  /\ (list_service P = None <-> ensureNonDuplicateLink P link = Throw FETCH_FAILED).
Proof.
  destruct (list_service P) as [page|] eqn:Hpage.
  - destruct (ensureNonDuplicateLink_page P page link Hpage) as [Hin Hout].
    destruct (in_dec string_dec link page) as [H | H].
    + rewrite (Hin H). repeat split; try discriminate; try congruence.
      * intros _. exists page. auto.
      * intros [page' [[= <-] Hnot]]. contradiction.
    + rewrite (Hout H). repeat split; try discriminate; try congruence.
      * intros [page' [[= <-] Hyes]]. contradiction.
      * intros _. exists page. auto.
  - unfold ensureNonDuplicateLink. rewrite Hpage.
    repeat split; try discriminate; try congruence;
      intros [page [Hp _]]; discriminate Hp.
Qed.

(** ** Links that are already normal, and their default tags *)

Lemma replace_absent (s pat rep : string) :
  JS.includes s pat = false -> JS.replace s pat rep = s.
Proof.
  induction s as [|c t IH]; cbn [JS.includes JS.replace].
  - destruct (String.prefix pat EmptyString); [discriminate | reflexivity].
  - destruct (String.prefix pat (String c t)); [discriminate |].
    intros H. rewrite (IH H). reflexivity.
Qed.

Lemma includes_longer (s before pat after : string) :
  JS.includes s (before ++ pat ++ after) = true -> JS.includes s pat = true.
Proof.
  intros H. apply includes_app in H. destruct H as [a [b ->]].
  apply includes_app. exists (a ++ before), (after ++ b).
  rewrite !append_assoc. reflexivity.
Qed.

(** X14: a link that starts with [http] and holds neither [http://] nor
    [twitter.com] nor [x.com] is its own normal form: it comes back
    unchanged, and the [URL] constructor is not consulted, so that the
    normalization cannot fail. *)
Theorem normalizeUrl_fixed (P : Platform) (raw : string) :
  JS.startsWith raw "http" = true ->
  JS.includes raw "http://" = false ->
  JS.includes raw "twitter.com" = false ->
  JS.includes raw "x.com" = false ->
  rewriteUrl raw = raw /\ normalizeUrl P raw = Ok raw.
Proof.
  intros Hstart Hhttp Htwitter Hx.
  assert (Hvx : JS.includes raw "vxtwitter.com" = false).
  { destruct (JS.includes raw "vxtwitter.com") eqn:Hvx; [| reflexivity].
    rewrite (includes_longer raw "vx" "twitter.com" EmptyString Hvx) in Htwitter.
    discriminate. }
  assert (Hrewrite : rewriteUrl raw = raw).
  { unfold rewriteUrl. rewrite Hstart. cbn [negb].
    rewrite (replace_absent raw "http://" "https://" Hhttp).
    rewrite (replace_absent raw "vxtwitter.com" "x.com" Hvx).
    apply replace_absent. exact Htwitter. }
  split; [exact Hrewrite |].
  unfold normalizeUrl. rewrite Hrewrite, Hx. reflexivity.
Qed.

Lemma normalizeUrl_fixed_witness :
  normalizeUrl offline "https://bloomberg.com/a?page=2#top"
  = Ok "https://bloomberg.com/a?page=2#top".
Proof.
  apply (normalizeUrl_fixed offline "https://bloomberg.com/a?page=2#top");
    reflexivity.
Defined.

(** X15: the default tags are those of the first key of the table, in the
    order bloomberg.com, medium.com, spotify.com, x.com, youtube.com, that
    occurs in the url.  There is never more than one tag, and none exactly
    when no key occurs.  A url in which [bloomberg.com] occurs is [news]
    whatever else it holds, and a url in which [x.com] occurs without any of
    the three keys before it is [tweets], whatever its host. *)
Theorem defaultTagsForUrl_first_key (url : string) :
  (List.length (defaultTagsForUrl url) <= 1)%nat
  /\ (defaultTagsForUrl url = []
      <-> forall domain domainTags,
            In (domain, domainTags) defaultTagsForDomain -> JS.includes url domain = false)
  /\ (JS.includes url "bloomberg.com" = true -> defaultTagsForUrl url = [news])
  /\ (JS.includes url "x.com" = true ->
      JS.includes url "bloomberg.com" = false ->
      JS.includes url "medium.com" = false ->
      JS.includes url "spotify.com" = false ->
      defaultTagsForUrl url = [tweets]).
Proof.
  split; [apply defaultTagsForUrl_single | split; [| split]].
  - split.
    + intros Hnone.
      destruct (defaultTagsForUrl_first url)
        as [[domain [domainTags [Hin [Hinc Htags]]]] | [Hall _]]; [| exact Hall].
      rewrite Hnone in Htags. subst domainTags.
      unfold defaultTagsForDomain in Hin. cbn in Hin.
      repeat (destruct Hin as [Hin | Hin]; [discriminate Hin |]). destruct Hin.
    + intros Hall. unfold defaultTagsForUrl.
      destruct (find (fun kv => JS.includes url (fst kv)) defaultTagsForDomain)
        as [[domain domainTags]|] eqn:Hfind; [| reflexivity].
      apply find_some in Hfind. destruct Hfind as [Hin Hinc]. cbn in Hinc.
      rewrite (Hall domain domainTags Hin) in Hinc. discriminate.
  - intros H. unfold defaultTagsForUrl, defaultTagsForDomain. cbn [find fst].
    rewrite H. reflexivity.
  - intros Hx Hb Hm Hs. unfold defaultTagsForUrl, defaultTagsForDomain. cbn [find fst].
    rewrite Hb, Hm, Hs, Hx. reflexivity.
Qed.

Lemma defaultTagsForUrl_first_key_witness :
  defaultTagsForUrl "https://dropbox.com/s/report" = [tweets].
Proof.
  apply (defaultTagsForUrl_first_key "https://dropbox.com/s/report"); reflexivity.
Defined.

(** ** Labels of the options *)

(** X16: for an equality test that decides equality of slugs, the label of a
    slug is the title of the first option of the list with that slug: it
    exists exactly when some option has the slug, and there is none for the
    slug of an empty sector or type. *)
Theorem getOptionLabel_first {T} (eqb : T -> T -> bool) (options : list (Option T)) (o : T) :
  (forall a b, eqb a b = true <-> a = b) ->
  getOptionLabel eqb options None = None
  /\ (forall l, getOptionLabel eqb options (Some o) = Some l ->
        exists before x after,
          options = (before ++ x :: after)%list
          /\ slug x = o /\ title_of x = l
          /\ forall y, In y before -> slug y <> o)
  /\ (getOptionLabel eqb options (Some o) <> None <-> exists x, In x options /\ slug x = o).
Proof.
  intros Heqb. split; [reflexivity |].
  assert (Hfind : forall found,
             find (fun x => eqb (slug x) o) options = Some found ->
             exists before after,
               options = (before ++ found :: after)%list
               /\ slug found = o /\ forall y, In y before -> slug y <> o).
  { induction options as [|x rest IH]; intros found Hf; [discriminate |].
    cbn [find] in Hf. destruct (eqb (slug x) o) eqn:Hx.
    - injection Hf as <-. exists [], rest. split; [reflexivity |].
      split; [apply Heqb; exact Hx | intros y []].
    - destruct (IH found Hf) as [before [after [-> [Hslug Hbefore]]]].
      exists (x :: before), after. split; [reflexivity | split; [exact Hslug |]].
      intros y [<- | Hy]; [| exact (Hbefore y Hy)].
      intros Hy. apply Heqb in Hy. congruence. }
  split.
  - intros l Hl. unfold getOptionLabel in Hl.
    destruct (find (fun x => eqb (slug x) o) options) as [found|] eqn:Hf; [| discriminate].
    injection Hl as <-.
    destruct (Hfind found eq_refl) as [before [after [Hsplit [Hslug Hbefore]]]].
    exists before, found, after. auto.
  - unfold getOptionLabel. split.
    + destruct (find (fun x => eqb (slug x) o) options) as [found|] eqn:Hf;
        [| intros H; congruence].
      intros _. apply find_some in Hf. destruct Hf as [Hin Hx].
      exists found. split; [exact Hin | apply Heqb; exact Hx].
    + intros [x [Hin Hx]].
      destruct (find (fun y => eqb (slug y) o) options) as [found|] eqn:Hf;
        [discriminate |].
      pose proof (find_none _ _ Hf x Hin) as Hno. cbn in Hno.
      assert (Hyes : eqb (slug x) o = true) by (apply Heqb; exact Hx).
      congruence.
Qed.

Lemma SectorSlug_eqb_eq (a b : SectorSlug) : SectorSlug_eqb a b = true <-> a = b.
Proof.
  destruct a, b; cbn; split; intros H; try reflexivity; discriminate H.
Qed.

Lemma ReadsTag_eqb_eq (a b : ReadsTag) : ReadsTag_eqb a b = true <-> a = b.
Proof.
  destruct a, b; cbn; split; intros H; try reflexivity; discriminate H.
Qed.

Lemma getOptionLabel_first_witness :
  getOptionLabel SectorSlug_eqb sectors (Some macro_markets) <> None.
Proof.
  apply (getOptionLabel_first SectorSlug_eqb sectors macro_markets SectorSlug_eqb_eq).
  exists {| slug := macro_markets; title_of := "Macro & Markets" |}.
  split; [cbn; tauto | reflexivity].
Defined.

(** ** Prompting for the next field *)

(** X17: [nextState] only prompts.  It never touches the draft or the
    replies already sent; it sends two replies at most; outside the state
    [build] it does nothing at all, and from [build] it ends in [build] or,
    when it asks for the title, in [await_title]. *)
Theorem nextState_only_prompts (c : Ctx) :
  item (session (snd (nextState c))) = item (session c)
  /\ (exists sent : list Reply,
        replies (snd (nextState c)) = (replies c ++ sent)%list
        /\ (List.length sent <= 2)%nat)
  /\ (state (session c) <> build -> nextState c = (Ok tt, c))
  /\ (state (session c) = build ->
      state (session (snd (nextState c))) = build
      \/ (state (session (snd (nextState c))) = await_title
          /\ title (item (session c)) = EmptyString)).
Proof.
  destruct (nextState_item c) as [_ [Hitem _]].
  split; [exact Hitem | split; [| split]].
  - destruct c as [[st it] q rs].
    unfold nextState, handleSetTitle, handleSetTaxonomy, handleSetTag, handleSetOption,
      replyWithPreview, displayMenu, displayOptionMenu, ensureLinkSet,
      setState, getItem, getSession, setSession, reply, bind, ret.
    cbn.
    destruct st; cbn; try (exists []; rewrite app_nil_r; split; [reflexivity | cbn; lia]).
    repeat (match goal with
            | |- context [if ?b then _ else _] => destruct b; cbn
            end);
      try (eexists; split; [reflexivity | cbn; lia]);
      rewrite <- app_assoc; eexists; split; [reflexivity | cbn; lia].
  - apply nextState_idle.
  - intros Hst. rewrite nextState_state, Hst. cbn [ReadsState_eqb andb].
    destruct (JS.falsy (title (item (session c)))) eqn:Htitle; cbn [andb]; [| auto].
    destruct (negb (JS.falsy (link (item (session c))))); [| auto].
    right. split; [reflexivity |].
    destruct (title (item (session c))); [reflexivity | discriminate].
Qed.

(** ** Where drafts come from *)

Lemma handleUpdateUrl_taxonomy (P : Platform) (url : string) (c : Ctx) :
  taxonomy (item (session (snd (handleUpdateUrl P url c)))) = [].
Proof.
  pose proof (handleUpdateUrl_cases P url c)
    as [[e [_ Hrun]] | [[cleanUrl [metadata [_ [_ Hrun]]]]
       | [[cleanUrl [_ [_ Hrun]]] | [[cleanUrl [e [summary [_ [_ [_ [_ Hrun]]]]]]]
       | [cleanUrl [e [_ [_ [_ [_ Hrun]]]]]]]]]];
    rewrite Hrun; try reflexivity.
  - destruct (nextState_item (inSession (fetching c)
                {| state := build; item := metadataItem cleanUrl metadata |}))
      as [_ [-> _]]. reflexivity.
  - destruct (nextState_item (inSession (fetching c)
                {| state := build; item := summaryItem cleanUrl summary |}))
      as [_ [-> _]]. reflexivity.
Qed.

Ltac not_building H :=
  unfold building in H; cbn in H; destruct H as [H | [H | H]]; discriminate H.

(** X18: a draft starts from a link only.  From a session in state [none] or
    [await_url] without link, the only update that leads to one of the states
    [build], [await_title], [await_description] is a text that carries no
    registered command, handled as a link; the draft it starts has no
    sector, whatever was chosen before. *)
Theorem drafts_start_from_a_link (P : Platform) (u : Update) (s : ReadsSession) :
  idleUnlinked s -> ~ building s ->
  building (session (snd (handleUpdate P u s))) ->
  (exists text command,
      u = TextUpdate text command
      /\ commandNamed command = None
      /\ handleUpdate P u s = handleUpdateUrl P text (messageCtx s))
  /\ taxonomy (item (session (snd (handleUpdate P u s)))) = [].
Proof.
  intros Hidle Hnot Hb.
  assert (Hpost : forall c, session c = s -> ~ building (session (snd (handlePost P c)))).
  { intros c Hc. destruct (handlePost_cases P c) as [_ [_ [-> | [-> _]]]].
    - rewrite Hc. exact Hnot.
    - intros H. not_building H. }
  destruct s as [st it]. unfold idleUnlinked in Hidle. cbn in Hidle.
  destruct st; try (exfalso; apply Hnot; unfold building; cbn; tauto);
    destruct it as [t l d i tx tg]; cbn in Hidle; subst l;
    destruct u as [name | name query | choice query | choice query | text command];
    cbn [handleUpdate] in *;
    try (destruct (commandNamed command) as [name |] eqn:Hcommand);
    try (exfalso; destruct name; cbn [bot_command bot_action] in Hb;
         solve [ exact (Hpost _ eq_refl Hb) | not_building Hb ]);
    try (exfalso; not_building Hb).
  - destruct (String.eqb text "state"); [exfalso; not_building Hb |].
    destruct (hearsUrl text).
    + split; [exists text, command; auto | apply handleUpdateUrl_taxonomy].
    + split; [exists text, command; auto | apply handleUpdateUrl_taxonomy].
  - destruct (String.eqb text "state"); [exfalso; not_building Hb |].
    destruct (hearsUrl text).
    + split; [exists text, command; auto | apply handleUpdateUrl_taxonomy].
    + exfalso. not_building Hb.
Qed.

Lemma drafts_start_from_a_link_witness :
  taxonomy (item (session (snd (handleUpdate
     (fixedPlatform (Some (200%Z, Some someMetadata)) (Some []) None None)
     (TextUpdate "bloomberg.com/a" None)
     {| state := await_url; item := with_taxonomy [finance] createNewItem |}))))
  = [].
Proof.
  apply (drafts_start_from_a_link
           (fixedPlatform (Some (200%Z, Some someMetadata)) (Some []) None None)
           (TextUpdate "bloomberg.com/a" None)
           {| state := await_url; item := with_taxonomy [finance] createNewItem |}).
  - reflexivity.
  - intros H. not_building H.
  - unfold building. left. reflexivity.
Defined.

(** ** Starting the process *)

(** X20: the process starts exactly when the six required variables are set
    to non-empty strings; [DEV] and [PORT] are never needed.  When several
    are missing the error names the reading list first.  Once started, the
    webhook is the given address followed by [/webhooks/reads], or the given
    address itself when [DEV] is set to any non-empty string, in which case
    only the smee proxy is started. *)
Theorem startup_requirements (env : Server.Env) :
  ((exists st, Server.startup env = Ok st) <-> allRequired env = true)
  /\ (Server.truthy (Server.DELPHI_READS_READING_LIST_ID env) = false ->
      Server.startup env = Throw (Server.required "DELPHI_READS_READING_LIST_ID"))
  /\ (forall st, Server.startup env = Ok st ->
        Server.baseUrl (Server.delphiApi (Server.readsBotConfiguration st))
        = orEmpty (Server.DELPHI_API_BASE_URL env)
        /\ Server.botWebhookUrl st
           = (if Server.truthy (Server.DEV env)
              then orEmpty (Server.DELPHI_READS_WEBHOOK_URL env)
              else orEmpty (Server.DELPHI_READS_WEBHOOK_URL env) ++ "/webhooks/reads")
        /\ (Server.smeeTarget st <> None <-> Server.truthy (Server.DEV env) = true)).
Proof.
  unfold allRequired, Server.startup.
  destruct (Server.truthy (Server.DELPHI_READS_READING_LIST_ID env));
    destruct (Server.truthy (Server.DELPHI_READS_API_KEY env));
    destruct (Server.truthy (Server.DELPHI_API_BASE_URL env));
    destruct (Server.truthy (Server.DELPHI_READS_BOT_TOKEN env));
    destruct (Server.truthy (Server.DELPHI_READS_WEBHOOK_URL env));
    destruct (Server.truthy (Server.OPENAI_API_KEY env));
    cbn [negb andb];
    (split; [split; [try (intros [st H]; discriminate H); reflexivity
                    | try discriminate; intros _; eexists; reflexivity]
            | split; [try discriminate; intros _; reflexivity
                     | try (intros st H; discriminate H)]]).
  intros st [= <-]. cbn. split; [reflexivity | split; [reflexivity |]].
  destruct (Server.truthy (Server.DEV env)); split; congruence.
Qed.

(** ** Completing a draft *)

(** X21: three answers complete a draft.  From [await_title] with a link
    set, a title (a text message that carries no registered command, and
    whose text is not empty, is not [state] and is no link), then a sector
    button, then a type button leave the session in [build]; the draft has
    that text as title, that sector alone as taxonomy and that type alone as
    tags, and the link, description and image it had before.  Nothing is
    missing any more and, the fields of the draft being strings, the last
    answer is the preview followed by the menu. *)
Theorem three_answers_complete_a_draft (P : Platform) (it : ReadsItem)
    (text : string) (command : option string)
    (sector : SectorSlug) (tag : ReadsTag) (q : CallbackQuery) :
  link it <> EmptyString ->
  commandNamed command = None ->
  text <> EmptyString -> text <> "state" -> hearsUrl text = false ->
  let titled := session (snd (handleUpdate P (TextUpdate text command)
                                {| state := await_title; item := it |})) in
  let sectored := session (snd (handleUpdate P (SectorUpdate sector q) titled)) in
  let final := {| state := build;
                  item := {| title := text;
                             link := link it;
                             description := description it;
                             image_url := image_url it;
                             taxonomy := [sector];
                             tags := [tag] |} |} in
  titled = {| state := build;
              item := {| title := text;
                         link := link it;
                         description := description it;
                         image_url := image_url it;
                         taxonomy := taxonomy it;
                         tags := tags it |} |}
  /\ handleUpdate P (TypeUpdate tag q) sectored
     = (Ok tt, {| session := final; callbackQuery := Some q;
                  replies := [MarkdownV2 (previewText final);
                              InlineKeyboard "What would you like to do?" mainMenu] |})
  /\ sessionAfter P
       [TextUpdate text command; SectorUpdate sector q; TypeUpdate tag q]
       {| state := await_title; item := it |} = final
  /\ nextMissingField (item final) = field_none.
Proof.
  intros Hlink Hcommand Htext Hstate Hurl titled sectored final.
  assert (Htitled : titled = {| state := build;
                                item := {| title := text;
                                           link := link it;
                                           description := description it;
                                           image_url := image_url it;
                                           taxonomy := taxonomy it;
                                           tags := tags it |} |}).
  { subst titled. cbn [handleUpdate]. rewrite Hcommand, Hurl.
    apply String.eqb_neq in Hstate. rewrite Hstate.
    destruct it as [t l d i tx tg]. cbn in Hlink.
    destruct l as [|l0 l]; [congruence |]. destruct text as [|t0 text]; [congruence |].
    destruct tx as [|x tx]; destruct tg as [|g tg];
      unfold onText, actionCtx; run_all; reflexivity. }
  split; [exact Htitled |].
  assert (Hrun : handleUpdate P (TypeUpdate tag q) sectored
                 = (Ok tt, {| session := final; callbackQuery := Some q;
                              replies := [MarkdownV2 (previewText final);
                                          InlineKeyboard "What would you like to do?"
                                            mainMenu] |})).
  { clear Htitled. subst titled sectored final. cbn [handleUpdate]. rewrite Hcommand, Hurl.
    apply String.eqb_neq in Hstate. rewrite Hstate.
    destruct it as [t l d i tx tg]. cbn in Hlink.
    destruct l as [|l0 l]; [congruence |]. destruct text as [|t0 text]; [congruence |].
    destruct tx as [|x tx]; destruct tg as [|g tg];
      unfold onText, actionCtx; run_all; reflexivity. }
  split; [exact Hrun | split].
  - cbn [sessionAfter]. fold titled. fold sectored. rewrite Hrun. reflexivity.
  - subst final. destruct text as [|t0 text]; [congruence | reflexivity].
Qed.

Lemma three_answers_complete_a_draft_witness :
  sessionAfter offline
    [TextUpdate "Markets wrap" None; SectorUpdate macro_markets {| from_username := None |};
     TypeUpdate news {| from_username := None |}]
    {| state := await_title; item := with_link "https://bloomberg.com/a" createNewItem |}
  = {| state := build;
       item := {| title := "Markets wrap"; link := "https://bloomberg.com/a";
                  description := EmptyString; image_url := EmptyString;
                  taxonomy := [macro_markets]; tags := [news] |} |}.
Proof.
  apply (three_answers_complete_a_draft offline
           (with_link "https://bloomberg.com/a" createNewItem) "Markets wrap" None
           macro_markets news {| from_username := None |});
    [discriminate | reflexivity | discriminate | discriminate | reflexivity].
Defined.
